(** * Verification of the GitHub issue-triage service (main.go)

    A shallow embedding of [handleProcessError], [searchGithubIssues],
    [createGithubIssues], [initializeAIPipeline] and [main], together with
    the parts of Go's [strings], [unicode/utf8] and [encoding/json]
    packages they call.  Go strings are byte sequences: they are modelled by
    [String.string], whose characters are 8-bit [ascii] values.  Indices are
    Go [int]s, modelled by [Z], with [-1] for "not found" exactly as the
    library returns it. *)

From Stdlib Require Import ZArith Ascii String List Lia DecimalString.
From stdpp Require Import base option gmap strings.

Local Open Scope Z_scope.
Local Open Scope string_scope.

(** ** Byte constants that cannot be written inside a string literal *)

Definition LF : ascii := "010"%char.
Definition DQ : ascii := "034"%char.
Definition nl : string := String LF EmptyString.
Definition dq : string := String DQ EmptyString.

(** ** The [strings] package *)

Module Strings.

(** [len(s)] *)
Definition len (s : string) : Z := Z.of_nat (String.length s).

(** [strings.HasPrefix(s, prefix)] *)
Fixpoint HasPrefix (s prefix : string) : bool :=
  match prefix, s with
  | EmptyString, _ => true
  | String _ _, EmptyString => false
  | String p prefix', String c s' => Ascii.eqb c p && HasPrefix s' prefix'
  end.

(** The bytes of [s] in reverse order (used to scan from the end). *)
Fixpoint rev (s : string) : string :=
  match s with
  | EmptyString => EmptyString
  | String c s' => rev s' +:+ String c EmptyString
  end.

(** [strings.Index(s, substr)]: byte offset of the first occurrence of
    [substr] in [s], or [-1].  [indexFrom] carries the offset of the
    suffix being inspected. *)
Fixpoint indexFrom (i : Z) (s substr : string) : Z :=
  if HasPrefix s substr then i
  else match s with
       | EmptyString => -1
       | String _ s' => indexFrom (i + 1) s' substr
       end.

Definition Index (s substr : string) : Z := indexFrom 0 s substr.

(** [strings.Contains(s, substr)] is [Index(s, substr) >= 0]. *)
Definition Contains (s substr : string) : bool := (0 <=? Index s substr)%Z.

(** [strings.IndexByte]-style membership of a byte in a set of bytes. *)
Fixpoint containsByte (chars : string) (c : ascii) : bool :=
  match chars with
  | EmptyString => false
  | String d chars' => Ascii.eqb c d || containsByte chars' c
  end.

(** [strings.IndexAny(s, chars)] for a [chars] made of ASCII bytes only
    (the library's [asciiSet] path, a byte-wise scan): offset of the first
    byte of [s] that occurs in [chars], or [-1]. *)
Fixpoint indexAnyFrom (i : Z) (s chars : string) : Z :=
  match s with
  | EmptyString => -1
  | String c s' =>
      if containsByte chars c then i else indexAnyFrom (i + 1) s' chars
  end.

Definition IndexAny (s chars : string) : Z := indexAnyFrom 0 s chars.

(** Slice expressions [s[lo:hi]], [s[lo:]] and [s[:hi]].  Go checks
    [0 <= lo <= hi <= len(s)] at run time and panics otherwise: [None]. *)
Definition slice (s : string) (lo hi : Z) : option string :=
  if ((0 <=? lo)%Z && (lo <=? hi)%Z && (hi <=? len s)%Z)%bool
  then Some (String.substring (Z.to_nat lo) (Z.to_nat (hi - lo)) s)
  else None.

Definition sliceFrom (s : string) (lo : Z) : option string :=
  slice s lo (len s).

Definition sliceTo (s : string) (hi : Z) : option string :=
  slice s 0 hi.

(** [unicode.IsSpace], as the UTF-8 byte sequences of the code points
    with the White_Space property: the six ASCII ones, U+0085, U+00A0,
    U+1680, U+2000..U+200A, U+2028, U+2029, U+202F, U+205F and U+3000.
    A rune decoded from a string is one of these code points exactly when
    the bytes at that place are its (shortest-form) encoding, so trimming
    by rune and trimming by these byte sequences coincide. *)
Definition bytes (l : list nat) : string :=
  string_of_list_ascii (List.map ascii_of_nat l).

Definition spaceRunes : list string :=
  List.map bytes
    ([ [9]; [10]; [11]; [12]; [13]; [32];
       [194; 133]; [194; 160];
       [225; 154; 128];
       [226; 128; 128]; [226; 128; 129]; [226; 128; 130]; [226; 128; 131];
       [226; 128; 132]; [226; 128; 133]; [226; 128; 134]; [226; 128; 135];
       [226; 128; 136]; [226; 128; 137]; [226; 128; 138];
       [226; 128; 168]; [226; 128; 169]; [226; 128; 175];
       [226; 129; 159];
       [227; 128; 128] ])%nat.

(** Width in bytes of the space rune that [s] starts with, [0] if none. *)
Fixpoint spacePrefix (runes : list string) (s : string) : nat :=
  match runes with
  | [] => 0%nat
  | r :: runes' =>
      if HasPrefix s r then String.length r else spacePrefix runes' s
  end.

(** [strings.TrimLeftFunc(s, unicode.IsSpace)].  Every space rune is at
    most three bytes wide, hence the three nested cases: the recursion
    stays structural in [s]. *)
Fixpoint trimLeft (runes : list string) (s : string) : string :=
  match spacePrefix runes s, s with
  | 1%nat, String _ s1 => trimLeft runes s1
  | 2%nat, String _ (String _ s2) => trimLeft runes s2
  | 3%nat, String _ (String _ (String _ s3)) => trimLeft runes s3
  | _, _ => s
  end.

(** [strings.TrimSpace(s)]: leading space runes are removed, then the
    trailing ones (the same scan over the reversed string with the
    reversed encodings). *)
Definition TrimSpace (s : string) : string :=
  let s1 := trimLeft spaceRunes s in
  rev (trimLeft (List.map rev spaceRunes) (rev s1)).

(** [strings.Join(elems, sep)] *)
Fixpoint Join (elems : list string) (sep : string) : string :=
  match elems with
  | [] => EmptyString
  | [e] => e
  | e :: elems' => e +:+ sep +:+ Join elems' sep
  end.

(** The [%d] verb of [fmt.Sprintf] on an [int]. *)
Definition Itoa (n : Z) : string := NilZero.string_of_int (Z.to_int n).

End Strings.

(** ** The [unicode/utf8] package *)

Module UTF8.

Definition byteVal (c : ascii) : N := N_of_ascii c.

(** [lo <= c <= hi] on bytes. *)
Definition between (lo hi : N) (c : ascii) : bool :=
  ((lo <=? byteVal c)%N && (byteVal c <=? hi)%N)%bool.

(** A continuation byte, [0x80..0xBF]. *)
Definition cont (c : ascii) : bool := between 128 191 c.

(** The size [utf8.DecodeRuneInString(s)] reports, with [0] standing for
    the answer [(RuneError, 1)] on a byte that starts no well-formed
    sequence (and for the empty string).  The cases are the library's
    [first] and [acceptRanges] tables: lead bytes [0xC2..0xDF] take one
    continuation byte, [0xE0..0xEF] two and [0xF0..0xF4] three, the first
    of them restricted after [0xE0], [0xED], [0xF0] and [0xF4]. *)
Definition runeWidth (s : string) : nat :=
  match s with
  | EmptyString => 0%nat
  | String b0 s1 =>
      let n := byteVal b0 in
      if (n <? 128)%N then 1%nat
      else if (n <? 194)%N then 0%nat
      else if (n <? 224)%N then
        match s1 with
        | String b1 _ => if cont b1 then 2%nat else 0%nat
        | _ => 0%nat
        end
      else if (n <? 240)%N then
        match s1 with
        | String b1 (String b2 _) =>
            if (between (if (n =? 224)%N then 160 else 128)
                        (if (n =? 237)%N then 159 else 191) b1
                && cont b2)%bool
            then 3%nat else 0%nat
        | _ => 0%nat
        end
      else if (n <? 245)%N then
        match s1 with
        | String b1 (String b2 (String b3 _)) =>
            if (between (if (n =? 240)%N then 144 else 128)
                        (if (n =? 244)%N then 143 else 191) b1
                && cont b2 && cont b3)%bool
            then 4%nat else 0%nat
        | _ => 0%nat
        end
      else 0%nat
  end.

(** [utf8.ValidString(s)] *)
Fixpoint ValidString (s : string) : bool :=
  match s with
  | EmptyString => true
  | String b0 s1 =>
      match runeWidth s, s1 with
      | 1%nat, _ => ValidString s1
      | 2%nat, String _ s2 => ValidString s2
      | 3%nat, String _ (String _ s3) => ValidString s3
      | 4%nat, String _ (String _ (String _ s4)) => ValidString s4
      | _, _ => false
      end
  end.

(** U+FFFD, the replacement character, in UTF-8. *)
Definition replacementChar : string :=
  String (ascii_of_N 239) (String (ascii_of_N 191) (String (ascii_of_N 189) EmptyString)).

(** The coercion to valid UTF-8 that [encoding/json] applies to strings,
    when it writes them and when it reads them: well-formed sequences are
    kept, and every byte that starts none is replaced, one by one, by
    U+FFFD. *)
Fixpoint replaceInvalid (s : string) : string :=
  match s with
  | EmptyString => EmptyString
  | String b0 s1 =>
      match runeWidth s, s1 with
      | 1%nat, _ => String b0 (replaceInvalid s1)
      | 2%nat, String b1 s2 => String b0 (String b1 (replaceInvalid s2))
      | 3%nat, String b1 (String b2 s3) =>
          String b0 (String b1 (String b2 (replaceInvalid s3)))
      | 4%nat, String b1 (String b2 (String b3 s4)) =>
          String b0 (String b1 (String b2 (String b3 (replaceInvalid s4))))
      | _, _ => replacementChar +:+ replaceInvalid s1
      end
  end.

(** [utf8.EncodeRune(r)]: the UTF-8 encoding of the code point [r];
    surrogates and values above U+10FFFF are written as U+FFFD. *)
Definition EncodeRune (r : N) : string :=
  let byte (n : N) : ascii := ascii_of_N n in
  let low6 (n : N) : N := (128 + N.land n 63)%N in
  if (r <=? 127)%N then String (byte r) EmptyString
  else if (r <=? 2047)%N then
    String (byte (192 + N.shiftr r 6)%N) (String (byte (low6 r)) EmptyString)
  else if ((1114111 <? r) || ((55296 <=? r) && (r <=? 57343)))%N%bool then
    replacementChar
  else if (r <=? 65535)%N then
    String (byte (224 + N.shiftr r 12)%N)
      (String (byte (low6 (N.shiftr r 6))) (String (byte (low6 r)) EmptyString))
  else
    String (byte (240 + N.shiftr r 18)%N)
      (String (byte (low6 (N.shiftr r 12)))
         (String (byte (low6 (N.shiftr r 6))) (String (byte (low6 r)) EmptyString))).

End UTF8.

(** ** The [encoding/json] package: scanner, validity, stream decoder *)

Module JSON.

Definition BS : ascii := "092"%char.

(** The codes a scanner step returns (scanner.go). *)
Inductive Op :=
| scanContinue | scanBeginLiteral | scanBeginObject | scanObjectKey
| scanObjectValue | scanEndObject | scanBeginArray | scanArrayValue
| scanEndArray | scanSkipSpace | scanEnd | scanError.

Inductive ParseState := parseObjectKey | parseObjectValue | parseArrayValue.

(** The scanner's [step] field: one constructor per state function. *)
Inductive StepFn :=
| stateBeginValue | stateBeginValueOrEmpty | stateBeginStringOrEmpty
| stateBeginString | stateEndValue | stateEndTop
| stateInString | stateInStringEsc | stateInStringEscU | stateInStringEscU1
| stateInStringEscU12 | stateInStringEscU123
| stateNeg | state1 | state0 | stateDot | stateDot0 | stateE | stateESign
| stateE0 | stateT | stateTr | stateTru | stateF | stateFa | stateFal
| stateFals | stateN | stateNu | stateNul | stateError.

(** The scanner.  [parseState] is the stack, innermost first; [err] keeps
    the offending byte and the context of the syntax error. *)
Record scanner := {
  step : StepFn;
  parseState : list ParseState;
  endTop : bool;
  err : option (ascii * string)
}.

Definition maxNestingDepth : N := 10000.

(** [scanner.reset] *)
Definition reset : scanner :=
  {| step := stateBeginValue; parseState := []; endTop := false; err := None |}.

Definition withStep (s : scanner) (f : StepFn) : scanner :=
  {| step := f; parseState := parseState s; endTop := endTop s; err := err s |}.

Definition withTop (s : scanner) (f : StepFn) (p : ParseState) : scanner :=
  {| step := f; parseState := p :: List.tl (parseState s);
     endTop := endTop s; err := err s |}.

(** [scanner.error]: the state becomes [stateError]. *)
Definition setError (s : scanner) (c : ascii) (context : string) : scanner * Op :=
  ({| step := stateError; parseState := parseState s; endTop := endTop s;
      err := Some (c, context) |}, scanError).

(** [scanner.pushParseState], called once [step] has been set. *)
Definition pushParseState (s : scanner) (c : ascii) (newParseState : ParseState)
    (successState : Op) : scanner * Op :=
  let s' := {| step := step s; parseState := newParseState :: parseState s;
               endTop := endTop s; err := err s |} in
  if (N.of_nat (length (parseState s')) <=? maxNestingDepth)%N
  then (s', successState)
  else setError s' c "exceeded max depth".

(** [scanner.popParseState] *)
Definition popParseState (s : scanner) : scanner :=
  match List.tl (parseState s) with
  | [] => {| step := stateEndTop; parseState := []; endTop := true; err := err s |}
  | ps => {| step := stateEndValue; parseState := ps; endTop := endTop s;
             err := err s |}
  end.

Definition eqc (c d : ascii) : bool := Ascii.eqb c d.

Definition isSpace (c : ascii) : bool :=
  (eqc c " " || eqc c "009" || eqc c "013" || eqc c "010")%bool.

Definition isDigit (c : ascii) : bool := UTF8.between 48 57 c.
Definition isDigit19 (c : ascii) : bool := UTF8.between 49 57 c.
Definition isHex (c : ascii) : bool :=
  (isDigit c || UTF8.between 97 102 c || UTF8.between 65 70 c)%bool.

Definition stateEndTopFn (s : scanner) (c : ascii) : scanner * Op :=
  if isSpace c then (s, scanEnd)
  else (fst (setError s c "after top-level value"), scanEnd).

Definition stateEndValueFn (s : scanner) (c : ascii) : scanner * Op :=
  match parseState s with
  | [] =>
      stateEndTopFn
        {| step := stateEndTop; parseState := []; endTop := true; err := err s |} c
  | ps :: _ =>
      if isSpace c then (withStep s stateEndValue, scanSkipSpace)
      else
        match ps with
        | parseObjectKey =>
            if eqc c ":" then (withTop s stateBeginValue parseObjectValue, scanObjectKey)
            else setError s c "after object key"
        | parseObjectValue =>
            if eqc c "," then (withTop s stateBeginString parseObjectKey, scanObjectValue)
            else if eqc c "}" then (popParseState s, scanEndObject)
            else setError s c "after object key:value pair"
        | parseArrayValue =>
            if eqc c "," then (withStep s stateBeginValue, scanArrayValue)
            else if eqc c "]" then (popParseState s, scanEndArray)
            else setError s c "after array element"
        end
  end.

Definition stateBeginValueFn (s : scanner) (c : ascii) : scanner * Op :=
  if isSpace c then (s, scanSkipSpace)
  else if eqc c "{" then
    pushParseState (withStep s stateBeginStringOrEmpty) c parseObjectKey scanBeginObject
  else if eqc c "[" then
    pushParseState (withStep s stateBeginValueOrEmpty) c parseArrayValue scanBeginArray
  else if eqc c DQ then (withStep s stateInString, scanBeginLiteral)
  else if eqc c "-" then (withStep s stateNeg, scanBeginLiteral)
  else if eqc c "0" then (withStep s state0, scanBeginLiteral)
  else if eqc c "t" then (withStep s stateT, scanBeginLiteral)
  else if eqc c "f" then (withStep s stateF, scanBeginLiteral)
  else if eqc c "n" then (withStep s stateN, scanBeginLiteral)
  else if isDigit19 c then (withStep s state1, scanBeginLiteral)
  else setError s c "looking for beginning of value".

Definition stateBeginValueOrEmptyFn (s : scanner) (c : ascii) : scanner * Op :=
  if isSpace c then (s, scanSkipSpace)
  else if eqc c "]" then stateEndValueFn s c
  else stateBeginValueFn s c.

Definition stateBeginStringFn (s : scanner) (c : ascii) : scanner * Op :=
  if isSpace c then (s, scanSkipSpace)
  else if eqc c DQ then (withStep s stateInString, scanBeginLiteral)
  else setError s c "looking for beginning of object key string".

Definition stateBeginStringOrEmptyFn (s : scanner) (c : ascii) : scanner * Op :=
  if isSpace c then (s, scanSkipSpace)
  else if eqc c "}" then
    stateEndValueFn (withTop s (step s) parseObjectValue) c
  else stateBeginStringFn s c.

Definition stateInStringFn (s : scanner) (c : ascii) : scanner * Op :=
  if eqc c DQ then (withStep s stateEndValue, scanContinue)
  else if eqc c BS then (withStep s stateInStringEsc, scanContinue)
  else if (UTF8.byteVal c <? 32)%N then setError s c "in string literal"
  else (s, scanContinue).

Definition stateInStringEscFn (s : scanner) (c : ascii) : scanner * Op :=
  if (eqc c "b" || eqc c "f" || eqc c "n" || eqc c "r" || eqc c "t"
      || eqc c BS || eqc c "/" || eqc c DQ)%bool
  then (withStep s stateInString, scanContinue)
  else if eqc c "u" then (withStep s stateInStringEscU, scanContinue)
  else setError s c "in string escape code".

(** The four states after [\u]: a hexadecimal digit leads to [next]. *)
Definition stateHexFn (next : StepFn) (s : scanner) (c : ascii) : scanner * Op :=
  if isHex c then (withStep s next, scanContinue)
  else setError s c "in \u hexadecimal character escape".

Definition state0Fn (s : scanner) (c : ascii) : scanner * Op :=
  if eqc c "." then (withStep s stateDot, scanContinue)
  else if (eqc c "e" || eqc c "E")%bool then (withStep s stateE, scanContinue)
  else stateEndValueFn s c.

Definition state1Fn (s : scanner) (c : ascii) : scanner * Op :=
  if isDigit c then (withStep s state1, scanContinue) else state0Fn s c.

Definition stateNegFn (s : scanner) (c : ascii) : scanner * Op :=
  if eqc c "0" then (withStep s state0, scanContinue)
  else if isDigit19 c then (withStep s state1, scanContinue)
  else setError s c "in numeric literal".

Definition stateDotFn (s : scanner) (c : ascii) : scanner * Op :=
  if isDigit c then (withStep s stateDot0, scanContinue)
  else setError s c "after decimal point in numeric literal".

Definition stateDot0Fn (s : scanner) (c : ascii) : scanner * Op :=
  if isDigit c then (s, scanContinue)
  else if (eqc c "e" || eqc c "E")%bool then (withStep s stateE, scanContinue)
  else stateEndValueFn s c.

Definition stateESignFn (s : scanner) (c : ascii) : scanner * Op :=
  if isDigit c then (withStep s stateE0, scanContinue)
  else setError s c "in exponent of numeric literal".

Definition stateEFn (s : scanner) (c : ascii) : scanner * Op :=
  if (eqc c "+" || eqc c "-")%bool then (withStep s stateESign, scanContinue)
  else stateESignFn s c.

Definition stateE0Fn (s : scanner) (c : ascii) : scanner * Op :=
  if isDigit c then (s, scanContinue) else stateEndValueFn s c.

(** The states inside [true], [false] and [null]: [expected] leads to
    [next]. *)
Definition stateLetterFn (expected : ascii) (next : StepFn) (context : string)
    (s : scanner) (c : ascii) : scanner * Op :=
  if eqc c expected then (withStep s next, scanContinue) else setError s c context.

(** One step of the scanner: [s.step(s, c)]. *)
Definition scanStep (s : scanner) (c : ascii) : scanner * Op :=
  match step s with
  | stateBeginValue => stateBeginValueFn s c
  | stateBeginValueOrEmpty => stateBeginValueOrEmptyFn s c
  | stateBeginStringOrEmpty => stateBeginStringOrEmptyFn s c
  | stateBeginString => stateBeginStringFn s c
  | stateEndValue => stateEndValueFn s c
  | stateEndTop => stateEndTopFn s c
  | stateInString => stateInStringFn s c
  | stateInStringEsc => stateInStringEscFn s c
  | stateInStringEscU => stateHexFn stateInStringEscU1 s c
  | stateInStringEscU1 => stateHexFn stateInStringEscU12 s c
  | stateInStringEscU12 => stateHexFn stateInStringEscU123 s c
  | stateInStringEscU123 => stateHexFn stateInString s c
  | stateNeg => stateNegFn s c
  | state1 => state1Fn s c
  | state0 => state0Fn s c
  | stateDot => stateDotFn s c
  | stateDot0 => stateDot0Fn s c
  | stateE => stateEFn s c
  | stateESign => stateESignFn s c
  | stateE0 => stateE0Fn s c
  | stateT => stateLetterFn "r" stateTr "in literal true (expecting 'r')" s c
  | stateTr => stateLetterFn "u" stateTru "in literal true (expecting 'u')" s c
  | stateTru => stateLetterFn "e" stateEndValue "in literal true (expecting 'e')" s c
  | stateF => stateLetterFn "a" stateFa "in literal false (expecting 'a')" s c
  | stateFa => stateLetterFn "l" stateFal "in literal false (expecting 'l')" s c
  | stateFal => stateLetterFn "s" stateFals "in literal false (expecting 's')" s c
  | stateFals => stateLetterFn "e" stateEndValue "in literal false (expecting 'e')" s c
  | stateN => stateLetterFn "u" stateNu "in literal null (expecting 'u')" s c
  | stateNu => stateLetterFn "l" stateNul "in literal null (expecting 'l')" s c
  | stateNul => stateLetterFn "l" stateEndValue "in literal null (expecting 'l')" s c
  | stateError => (s, scanError)
  end.

(** [scanner.eof] answers [scanEnd]: no error is pending and the
    top-level value is complete, at the latest once a space is fed. *)
Definition eofEnds (s : scanner) : bool :=
  match err s with
  | Some _ => false
  | None => if endTop s then true else endTop (fst (scanStep s " "))
  end.

(** [checkValid]: every byte is stepped through, then [eof]. *)
Fixpoint checkValidFrom (s : scanner) (data : string) : bool :=
  match data with
  | EmptyString => eofEnds s
  | String c data' =>
      let '(s', op) := scanStep s c in
      match op with
      | scanError => false
      | _ => checkValidFrom s' data'
      end
  end.

(** [json.Valid(data)] *)
Definition Valid (data : string) : bool := checkValidFrom reset data.


(** *** The stream decoder: [Decoder.readValue] *)

(** What [Decode] can return: [io.EOF], [io.ErrUnexpectedEOF], a
    [*SyntaxError] (the offending byte and the context) or an
    [*UnmarshalTypeError] (the JSON kind, and the field it was meant for,
    empty for the whole value). *)
Inductive DecodeError :=
| EOF
| UnexpectedEOF
| SyntaxError (c : ascii) (context : string)
| UnmarshalTypeError (value field : string).

Inductive Read :=
| ReadValue (value rest : string)
| ReadFail (e : DecodeError)
| ReadMore.

Definition more (c : ascii) (r : Read) : Read :=
  match r with
  | ReadValue v rest => ReadValue (String c v) rest
  | _ => r
  end.

Definition syntaxError (s : scanner) (c : ascii) : DecodeError :=
  match err s with
  | Some (c', context) => SyntaxError c' context
  | None => SyntaxError c ""
  end.

(** The scan loop of [readValue] over what is left of the body.  The
    value ends before the byte that answers [scanEnd], or right after the
    bracket that closes the outermost object or array (the decoder feeds
    a space to find out); when the input ends, a last space is fed. *)
Fixpoint readLoop (s : scanner) (buf : string) : Read :=
  match buf with
  | EmptyString =>
      match snd (scanStep s " ") with
      | scanEnd => ReadValue "" ""
      | _ => ReadMore
      end
  | String c rest =>
      let '(s', op) := scanStep s c in
      match op with
      | scanEnd => ReadValue "" buf
      | scanError => ReadFail (syntaxError s' c)
      | scanEndObject | scanEndArray =>
          let '(s'', op') := stateEndValueFn s' " " in
          match op' with
          | scanEnd => ReadValue (String c "") rest
          | _ => more c (readLoop s'' rest)
          end
      | _ => more c (readLoop s' rest)
      end
  end.

Fixpoint nonSpace (b : string) : bool :=
  match b with
  | EmptyString => false
  | String c b' => negb (isSpace c) || nonSpace b'
  end.

(** [Decoder.readValue] on a fresh decoder whose reader delivers [body]:
    the bytes of the first value and what follows them. *)
Definition readValue (body : string) : DecodeError + (string * string) :=
  match readLoop reset body with
  | ReadValue v rest => inr (v, rest)
  | ReadFail e => inl e
  | ReadMore => inl (if nonSpace body then UnexpectedEOF else EOF)
  end.

(** *** Unmarshalling the value *)

(** The value, as the second scan of the decoder sees it.  Literals keep
    their bytes. *)
#[warnings="-register-all"]
Inductive Value :=
| JNull
| JBool (b : bool)
| JNumber (lit : string)
| JString (lit : string)
| JArray (elems : list Value)
| JObject (members : list (string * Value)).

(** An array or object under construction, last element first. *)
Inductive Frame :=
| FArray (elems : list Value)
| FObject (members : list (string * Value)) (key : option string).

Record builder := {
  frames : list Frame;
  lit : option string;
  done : option Value
}.

Definition literalValue (l : string) : Value :=
  match l with
  | EmptyString => JNull
  | String c _ =>
      if eqc c DQ then JString l
      else if eqc c "n" then JNull
      else if eqc c "t" then JBool true
      else if eqc c "f" then JBool false
      else JNumber l
  end.

Definition deliver (v : Value) (fs : list Frame) (b : builder) : builder :=
  match fs with
  | [] => {| frames := []; lit := lit b; done := Some v |}
  | FArray es :: fs' =>
      {| frames := FArray (v :: es) :: fs'; lit := lit b; done := done b |}
  | FObject ms None :: fs' =>
      match v with
      | JString k =>
          {| frames := FObject ms (Some k) :: fs'; lit := lit b; done := done b |}
      | _ => b
      end
  | FObject ms (Some k) :: fs' =>
      {| frames := FObject ((k, v) :: ms) None :: fs'; lit := lit b;
         done := done b |}
  end.

(** A literal ends at the first byte that does not answer
    [scanContinue]. *)
Definition endLiteral (b : builder) : builder :=
  match lit b with
  | Some l =>
      deliver (literalValue l) (frames b)
        {| frames := frames b; lit := None; done := done b |}
  | None => b
  end.

Definition feed (b : builder) (op : Op) (c : ascii) : builder :=
  match op with
  | scanContinue =>
      match lit b with
      | Some l =>
          {| frames := frames b; lit := Some (l +:+ String c ""); done := done b |}
      | None => b
      end
  | scanBeginLiteral =>
      let b1 := endLiteral b in
      {| frames := frames b1; lit := Some (String c ""); done := done b1 |}
  | scanBeginObject =>
      let b1 := endLiteral b in
      {| frames := FObject [] None :: frames b1; lit := None; done := done b1 |}
  | scanBeginArray =>
      let b1 := endLiteral b in
      {| frames := FArray [] :: frames b1; lit := None; done := done b1 |}
  | scanEndObject =>
      let b1 := endLiteral b in
      match frames b1 with
      | FObject ms _ :: fs => deliver (JObject (List.rev ms)) fs b1
      | _ => b1
      end
  | scanEndArray =>
      let b1 := endLiteral b in
      match frames b1 with
      | FArray es :: fs => deliver (JArray (List.rev es)) fs b1
      | _ => b1
      end
  | _ => endLiteral b
  end.

Fixpoint buildFrom (s : scanner) (b : builder) (data : string) : builder :=
  match data with
  | EmptyString => endLiteral b
  | String c data' =>
      let '(s', op) := scanStep s c in
      buildFrom s' (feed b op c) data'
  end.

(** The value that the bytes [data], accepted by [readValue], spell. *)
Definition parse (data : string) : option Value :=
  done (buildFrom reset {| frames := []; lit := None; done := None |} data).

Definition hexVal (c : ascii) : N :=
  if isDigit c then (UTF8.byteVal c - 48)%N
  else if UTF8.between 97 102 c then (UTF8.byteVal c - 87)%N
  else (UTF8.byteVal c - 55)%N.

(** [getu4] on the four bytes after [\u]; [None] is its [-1]. *)
Definition getu4 (h1 h2 h3 h4 : ascii) : option N :=
  if (isHex h1 && isHex h2 && isHex h3 && isHex h4)%bool
  then Some (((hexVal h1 * 16 + hexVal h2) * 16 + hexVal h3) * 16 + hexVal h4)%N
  else None.

Definition isSurrogate (r : N) : bool := ((55296 <=? r) && (r <? 57344))%N%bool.

(** [utf16.DecodeRune(r1, r2)] when it is not U+FFFD. *)
Definition decodePair (r1 r2 : N) : option N :=
  if ((55296 <=? r1) && (r1 <? 56320) && (56320 <=? r2) && (r2 <? 57344))%N%bool
  then Some (N.shiftl (r1 - 55296) 10 + (r2 - 56320) + 65536)%N
  else None.

Definition escaped (e : ascii) : option ascii :=
  if (eqc e DQ || eqc e BS || eqc e "/" || eqc e "'")%bool then Some e
  else if eqc e "b" then Some "008"%char
  else if eqc e "f" then Some "012"%char
  else if eqc e "n" then Some "010"%char
  else if eqc e "r" then Some "013"%char
  else if eqc e "t" then Some "009"%char
  else None.

(** [unquoteBytes] on what stands between the quotes of a string literal:
    escapes are resolved ([\u] escapes with their surrogate pairs) and
    invalid UTF-8 is coerced.  Where the library gives up ([ok] false) the
    result is cut; a literal that passed the scanner never gets there. *)
Fixpoint unquoteBytes (s : string) : string :=
  match s with
  | EmptyString => EmptyString
  | String c s1 =>
      if eqc c BS then
        match s1 with
        | EmptyString => EmptyString
        | String e s2 =>
            if eqc e "u" then
              match s2 with
              | String h1 (String h2 (String h3 (String h4 s6))) =>
                  match getu4 h1 h2 h3 h4 with
                  | None => EmptyString
                  | Some rr =>
                      if isSurrogate rr then
                        match s6 with
                        | String b (String u (String g1 (String g2 (String g3 (String g4 s12))))) =>
                            match (if (eqc b BS && eqc u "u")%bool
                                   then getu4 g1 g2 g3 g4 else None) with
                            | Some rr1 =>
                                match decodePair rr rr1 with
                                | Some dec => UTF8.EncodeRune dec +:+ unquoteBytes s12
                                | None => UTF8.replacementChar +:+ unquoteBytes s6
                                end
                            | None => UTF8.replacementChar +:+ unquoteBytes s6
                            end
                        | _ => UTF8.replacementChar +:+ unquoteBytes s6
                        end
                      else UTF8.EncodeRune rr +:+ unquoteBytes s6
                  end
              | _ => EmptyString
              end
            else
              match escaped e with
              | Some x => String x (unquoteBytes s2)
              | None => EmptyString
              end
        end
      else if (eqc c DQ || (UTF8.byteVal c <? 32)%N)%bool then EmptyString
      else if (UTF8.byteVal c <? 128)%N then String c (unquoteBytes s1)
      else
        match UTF8.runeWidth s, s1 with
        | 2%nat, String b1 s2 => String c (String b1 (unquoteBytes s2))
        | 3%nat, String b1 (String b2 s3) =>
            String c (String b1 (String b2 (unquoteBytes s3)))
        | 4%nat, String b1 (String b2 (String b3 s4)) =>
            String c (String b1 (String b2 (String b3 (unquoteBytes s4))))
        | _, _ => UTF8.replacementChar +:+ unquoteBytes s1
        end
  end.

(** The Go string of a string literal (quotes included in [lit]). *)
Definition unquote (lit : string) : string :=
  unquoteBytes (String.substring 1 (String.length lit - 2) lit).

Definition upper (c : ascii) : ascii :=
  if UTF8.between 97 122 c then ascii_of_N (UTF8.byteVal c - 32) else c.

Fixpoint foldName (s : string) : string :=
  match s with
  | EmptyString => EmptyString
  | String c s' => String (upper c) (foldName s')
  end.

(** Does the object key select the field tagged [name]?  Exactly, or
    else through [foldName].  The library's [foldName] also maps a
    non-ASCII rune to the least rune of its fold orbit; only the orbits of
    K and S reach ASCII, so for a [name] made of other ASCII letters,
    digits and underscores a key with a non-ASCII rune matches under
    neither definition. *)
Definition selects (name key : string) : bool :=
  (String.eqb key name || String.eqb (foldName key) (foldName name))%bool.

End JSON.

(** ** Data model *)

(** A Go [error], identified with the text of its [Error()] method, which
    is all the program ever does with one ([%v]). *)
Definition error : Type := string.

(** [ErrorLogRequest] and [APIResponse] of main.go. *)
Record ErrorLogRequest := { ErrorLog : string }.

Record APIResponse := {
  Status : string;
  Message : string;
  IssueURL : string
}.

(** A dynamically typed value ([any]) as [encoding/json] produces them:
    [nil], [bool], [float64] (by its bit pattern), [string], [[]any] and
    [map[string]any]. *)
#[warnings="-register-all"]
Inductive any : Type :=
| AnyNil
| AnyBool (b : bool)
| AnyFloat64 (bits : Z)
| AnyString (s : string)
| AnySlice (l : list any)
| AnyMap (m : list (string * any)).

(** [github.Issue] and [github.IssueRequest] (go-github): the fields the
    program reads are pointers, [None] is the nil pointer.  In the request
    the program always stores the addresses of its own locals. *)
Record Issue := { Title : option string; HTMLURL : option string }.

Record IssueRequest := {
  ReqTitle : string;
  ReqBody : string;
  ReqLabels : list string
}.

(** What the handler leaves in the [http.ResponseWriter].  A JSON body is
    kept as the members of the encoded object, in order, so that
    [omitempty] is visible; a member's value is the string that a JSON
    parser reads back from the body. *)
Inductive ResponseBody :=
| TextBody (text : string)
| JSONBody (members : list (string * string)).

Record Response := {
  StatusCode : Z;
  ContentType : string;
  Body : ResponseBody
}.

Record Request := { ReqBytes : string }.

Definition StatusOK : Z := 200.
Definition StatusBadRequest : Z := 400.
Definition StatusInternalServerError : Z := 500.

(** ** Effects: calls that leave the process, and run-time panics *)

Inductive Event :=
| EvPipelineRun (input runID : string)
| EvSearchIssues (query : string)
| EvCreateIssue (owner repo : string) (req : IssueRequest).

Inductive RuntimeError := SliceBoundsOutOfRange | NilPointerDereference.

Inductive Outcome (A : Type) :=
| Returned (a : A)
| Panicked (e : RuntimeError).
Arguments Returned {A} a.
Arguments Panicked {A} e.

(** A computation yields the calls it made, in order, and how it ended. *)
Definition Eff (A : Type) : Type := list Event * Outcome A.

#[global] Instance Eff_ret : MRet Eff := fun A a => ([], Returned a).

#[global] Instance Eff_bind : MBind Eff := fun A B f m =>
  match m with
  | (t, Returned a) => let '(t', r) := f a in ((t ++ t')%list, r)
  | (t, Panicked e) => (t, Panicked e)
  end.

Definition panic {A} (e : RuntimeError) : Eff A := ([], Panicked e).

(** A slice expression: its value, or the bounds panic. *)
Definition sliced (r : option string) : Eff string :=
  match r with
  | Some s => mret s
  | None => panic SliceBoundsOutOfRange
  end.

(** Pointer dereference [*p]. *)
Definition deref {A} (p : option A) : Eff A :=
  match p with
  | Some a => mret a
  | None => panic NilPointerDereference
  end.

(** An outgoing call: it is recorded, and answers what the outside
    answered. *)
Definition call {A} (e : Event) (answer : A) : Eff A := ([e], Returned answer).

(** ** Decoding the request: [json.NewDecoder(r.Body).Decode(&req)] *)

(** [decodeState.saveError]: the first error is the one reported. *)
Definition saveError (saved : option JSON.DecodeError) (e : JSON.DecodeError)
  : option JSON.DecodeError :=
  match saved with
  | None => Some e
  | Some _ => saved
  end.

(** One member of the top-level object.  A key that selects the field
    [error_log] stores a string literal, leaves the field alone on [null],
    and records a type error on anything else; other keys are skipped. *)
Definition storeMember (st : option JSON.DecodeError * ErrorLogRequest)
    (m : string * JSON.Value) : option JSON.DecodeError * ErrorLogRequest :=
  if JSON.selects "error_log" (JSON.unquote (fst m)) then
    match snd m with
    | JSON.JString lit => (fst st, {| ErrorLog := JSON.unquote lit |})
    | JSON.JNull => st
    | JSON.JBool _ =>
        (saveError (fst st) (JSON.UnmarshalTypeError "bool" "error_log"), snd st)
    | JSON.JNumber _ =>
        (saveError (fst st) (JSON.UnmarshalTypeError "number" "error_log"), snd st)
    | JSON.JArray _ =>
        (saveError (fst st) (JSON.UnmarshalTypeError "array" "error_log"), snd st)
    | JSON.JObject _ =>
        (saveError (fst st) (JSON.UnmarshalTypeError "object" "error_log"), snd st)
    end
  else st.

(** [decodeState.unmarshal] into a zero [ErrorLogRequest]: an object is
    stored member by member, [null] stores nothing, any other value is a
    type error. *)
Definition unmarshal (v : JSON.Value) : JSON.DecodeError + ErrorLogRequest :=
  match v with
  | JSON.JObject ms =>
      let st := fold_left storeMember ms (None, {| ErrorLog := "" |}) in
      match fst st with
      | Some e => inl e
      | None => inr (snd st)
      end
  | JSON.JNull => inr {| ErrorLog := "" |}
  | JSON.JBool _ => inl (JSON.UnmarshalTypeError "bool" "")
  | JSON.JNumber _ => inl (JSON.UnmarshalTypeError "number" "")
  | JSON.JString _ => inl (JSON.UnmarshalTypeError "string" "")
  | JSON.JArray _ => inl (JSON.UnmarshalTypeError "array" "")
  end.

(** [Decoder.Decode(&req)], first call: the first value of the body is
    read and unmarshalled; what follows it is not looked at.  (Where
    [parse] has no value the library panics with its phase error; bytes
    that [readValue] has accepted do not lead there, see [Decode_value].) *)
Definition Decode (body : string) : JSON.DecodeError + ErrorLogRequest :=
  match JSON.readValue body with
  | inl e => inl e
  | inr (value, _) =>
      match JSON.parse value with
      | Some v => unmarshal v
      | None => inl (JSON.SyntaxError " " "")
      end
  end.

(** The decoder as the handler sees it: the result of [Decode], an error
    being known by the text of its [Error()] method, which [errorText]
    supplies. *)
Definition decodeBody (errorText : JSON.DecodeError -> string) (body : string)
  : error + ErrorLogRequest :=
  match Decode body with
  | inl e => inl (errorText e)
  | inr req => inr req
  end.

(** ** The program *)

Section Program.

(** Process-wide configuration and clients ([ghOwner], [ghRepo],
    [ghClient], [llmPipeline]) and the JSON decoder: everything outside
    main.go is a parameter.

    - [ghSearchIssues q] is [ghClient.Search.Issues(ctx, q, nil)]: the
      error, or the [Issues] of the result;
    - [ghCreateIssue owner repo req] is [ghClient.Issues.Create];
    - [jsonDecode body] is [json.NewDecoder(body).Decode(&req)]: the
      error, or the decoded request (a field the body does not mention
      keeps its zero value, the empty string);
    - [llmPipelineRun input runID] is [llmPipeline.Run]: the calls made
      by the tools it dispatched, and its [(string, error)] result. *)
Variable ghOwner ghRepo : string.
Variable ghSearchIssues : string -> error + list Issue.
Variable ghCreateIssue : string -> string -> IssueRequest -> error + Issue.
Variable jsonDecode : string -> error + ErrorLogRequest.
Variable llmPipelineRun :
  string -> string -> list Event * (string * option error).

(** [http.Error(w, msg, code)] *)
Definition httpError (msg : string) (code : Z) : Response :=
  {| StatusCode := code;
     ContentType := "text/plain; charset=utf-8";
     Body := TextBody (msg +:+ nl) |}.

(** [json.NewEncoder(w).Encode(resp)] after the [Content-Type] header
    was set: the first write sends status 200.  [issue_url] carries
    [omitempty], which looks at the Go string; the value of a member is the
    string a JSON parser reads back from the body, that is the Go string
    with its invalid UTF-8 bytes replaced (escaping itself is undone by
    the reader). *)
Definition encodeAPIResponse (resp : APIResponse) : list (string * string) :=
  [("status", UTF8.replaceInvalid (Status resp));
   ("message", UTF8.replaceInvalid (Message resp))]
    ++ (if String.eqb (IssueURL resp) "" then []
        else [("issue_url", UTF8.replaceInvalid (IssueURL resp))]).

Definition jsonResponse (resp : APIResponse) : Response :=
  {| StatusCode := StatusOK;
     ContentType := "application/json";
     Body := JSONBody (encodeAPIResponse resp) |}.

Definition setIssueURL (resp : APIResponse) (u : string) : APIResponse :=
  {| Status := Status resp; Message := Message resp; IssueURL := u |}.

(** Lines 145-151, and again, letter for letter, lines 154-160:
    [if idx := strings.Index(finalOutput, "URL: "); idx != -1 { ... }]. *)
Definition parseIssueURL (finalOutput : string) (resp : APIResponse)
  : Eff APIResponse :=
  let idx := Strings.Index finalOutput "URL: " in
  if negb (idx =? -1)%Z then
    rest ← sliced (Strings.sliceFrom finalOutput (idx + 5));
    let endIdx := Strings.IndexAny rest (" " +:+ nl) in
    if negb (endIdx =? -1)%Z then
      u ← sliced (Strings.slice finalOutput (idx + 5) (idx + 5 + endIdx));
      mret (setIssueURL resp (Strings.TrimSpace u))
    else
      u ← sliced (Strings.sliceFrom finalOutput (idx + 5));
      mret (setIssueURL resp (Strings.TrimSpace u))
  else mret resp.

(** Lines 138-161: the response built from the pipeline's final output. *)
Definition synthesize (finalOutput : string) : Eff APIResponse :=
  let resp :=
    {| Status := "success"; Message := finalOutput; IssueURL := "" |} in
  if Strings.Contains finalOutput "GitHub issue created successfully!" then
    parseIssueURL finalOutput resp
  else if Strings.Contains finalOutput "Found existing issues:" then
    parseIssueURL finalOutput resp
  else mret resp.

(** [handleProcessError].  The run identifier ["run-id"+req.ErrorLog[:10]]
    is an argument of [llmPipeline.Run], so it is evaluated, and may
    panic, before the pipeline is entered. *)
Definition handleProcessError (r : Request) : Eff Response :=
  match jsonDecode (ReqBytes r) with
  | inl err =>
      mret (httpError ("Invalid request body: " +:+ err) StatusBadRequest)
  | inr req =>
      if String.eqb (ErrorLog req) "" then
        mret (httpError "Error log cannot be empty" StatusBadRequest)
      else
        head ← sliced (Strings.sliceTo (ErrorLog req) 10);
        let runID := "run-id" +:+ head in
        let '(calls, answer) := llmPipelineRun (ErrorLog req) runID in
        '(finalOutput, err) ←
          ((EvPipelineRun (ErrorLog req) runID :: calls, Returned answer)
             : Eff (string * option error));
        match err with
        | Some e =>
            mret (httpError ("Agent failed to process error: " +:+ e)
                    StatusInternalServerError)
        | None =>
            resp ← synthesize finalOutput;
            mret (jsonResponse resp)
        end
  end.

(** The loop of lines 185-188:
    [results = append(results, Sprintf(..., *issue.Title, *issue.HTMLURL))]. *)
Fixpoint formatIssues (issues : list Issue) (results : list string)
  : Eff (list string) :=
  match issues with
  | [] => mret results
  | issue :: issues' =>
      title ← deref (Title issue);
      url ← deref (HTMLURL issue);
      formatIssues issues'
        (results ++ ["- Title: " +:+ dq +:+ title +:+ dq +:+ ", URL: " +:+ url])
  end.

(** [searchGithubIssues] *)
Definition searchGithubIssues (args : gmap string any)
  : Eff (string * option error) :=
  match args !! "query" with
  | Some (AnyString query) =>
      let searchQuery :=
        query +:+ " is:issue in:title,body repo:" +:+ ghOwner +:+ "/" +:+ ghRepo in
      found ← call (EvSearchIssues searchQuery) (ghSearchIssues searchQuery);
      match found with
      | inl err => mret ("Error searching GitHub issues: " +:+ err, Some err)
      | inr issues =>
          if (Z.of_nat (length issues) =? 0)%Z then
            mret ("No existing issues found for this query.", None)
          else
            results ← formatIssues issues [];
            mret ("Found " +:+ Strings.Itoa (Z.of_nat (length issues))
                    +:+ " existing issues:" +:+ nl
                    +:+ Strings.Join results nl, None)
      end
  | _ =>
      mret ("", Some "missing or invalid 'query' argument for search_github_issues")
  end.

(** The loop of lines 209-214: the string elements of [labelsRaw], in
    order; an element of any other dynamic type is skipped. *)
Fixpoint collectLabels (labelsRaw : list any) (labels : list string)
  : list string :=
  match labelsRaw with
  | [] => labels
  | AnyString s :: labelsRaw' => collectLabels labelsRaw' (labels ++ [s])
  | _ :: labelsRaw' => collectLabels labelsRaw' labels
  end.

(** [createGithubIssues] *)
Definition createGithubIssues (args : gmap string any)
  : Eff (string * option error) :=
  match args !! "title" with
  | Some (AnyString title) =>
      match args !! "body" with
      | Some (AnyString body) =>
          let labelsRaw :=
            match args !! "labels" with
            | Some (AnySlice l) => l
            | _ => []
            end in
          let labels := collectLabels labelsRaw [] in
          let newIssue :=
            {| ReqTitle := title; ReqBody := body; ReqLabels := labels |} in
          created ← call (EvCreateIssue ghOwner ghRepo newIssue)
                         (ghCreateIssue ghOwner ghRepo newIssue);
          match created with
          | inl err => mret ("Error creating GitHub issue: " +:+ err, Some err)
          | inr issue =>
              t ← deref (Title issue);
              u ← deref (HTMLURL issue);
              mret ("GitHub issue created successfully! Title: "
                      +:+ dq +:+ t +:+ dq +:+ ", URL: " +:+ u, None)
          end
      | _ =>
          mret ("", Some "missing or invalid 'body' argument for create_github_issue")
      end
  | _ =>
      mret ("", Some "missing or invalid 'title' argument for create_github_issue")
  end.

End Program.

(** ** Start-up: [initializeAIPipeline] and [main] *)

Definition tab : string := String "009"%char EmptyString.

(** [swarmlet.LLMToolFieldProperty] and [swarmlet.LLMTool], with the
    fields main.go fills in; an absent [Enum] is the nil slice. *)
Record LLMToolFieldProperty := {
  FieldType : string;
  FieldDescription : string;
  Enum : list string
}.

Record LLMTool := {
  Name : string;
  Description : string;
  Params : gmap string LLMToolFieldProperty;
  Executor : gmap string any -> Eff (string * option error)
}.

(** What [swarmlet.NewPipeline] is given: the pipeline's name, the node's
    identifier, system prompt and tools, and the key and model of the LLM
    (the memory is [NewDummyMemory()], which takes nothing). *)
Record Pipeline := {
  PipelineName : string;
  NodeID : string;
  SystemPrompt : string;
  Tools : list LLMTool;
  LLMKey : string;
  LLMModel : string
}.

(** The tracker client built from a token: its two operations. *)
Record GhClient := {
  SearchIssues : string -> error + list Issue;
  CreateIssue : string -> string -> IssueRequest -> error + Issue
}.

(** [fmt.Sprintf(agentSystemPrompt, owner, repo)]: the template of
    prompts.go, line by line, with its two [%s] verbs filled in. *)
Definition agentSystemPrompt (owner repo : string) : string :=
  Strings.Join
    [""%string;
     "You are an automated GitHub Issue Triage Agent. Your task is to process incoming error logs.";
     tab +:+ "You have access to tools to interact with the GitHub repository " +:+ owner +:+ "/" +:+ repo +:+ ".";
     "";
     tab +:+ "Here's your workflow:";
     tab +:+ "1.  **First, always search for existing issues.** Use the 'search_github_issues' tool with a concise query derived from the error log to see if this bug or a similar one has already been reported.";
     tab +:+ "2.  **Analyze search results.**";
     tab +:+ tab +:+ "* If an existing relevant issue is found, respond by citing the issue URL(s) and state that the issue has already been reported.";
     tab +:+ tab +:+ "* If no relevant issue is found, proceed to create a new one.";
     tab +:+ "3.  **Create a new issue if necessary.** If no existing issue covers the error, use the 'create_github_issue' tool.";
     tab +:+ tab +:+ "* The 'title' should be a concise summary of the error, clearly indicating it's a bug.";
     tab +:+ tab +:+ "* The 'body' should include the full error log provided by the user, along with any other relevant details you can infer.";
     tab +:+ tab +:+ "* Always apply the labels 'bug' and 'llm created' to new issues.";
     tab +:+ "4.  **Confirm issue creation.** If you successfully create an issue, provide the title and URL of the newly created issue.";
     tab +:+ "5.  **If a tool call fails**, report the failure back to the user clearly." +:+ tab;
     ""]
    nl.

(** [initializeAIPipeline(openaiAPIKey)], reading the globals [ghOwner],
    [ghRepo] and [ghClient] that [main] has set. *)
Definition initializeAIPipeline (ghOwner ghRepo : string) (ghClient : GhClient)
    (openaiAPIKey : string) : Pipeline :=
  let tools :=
    [ {| Name := "search_github_issues";
         Description := "Searches for existing GitHub issues in the repository based on a query. Returns a list of issue titles and URLs if found, otherwise indicates no issues found.";
         Params :=
           {[ "query" :=
                {| FieldType := "string";
                   FieldDescription := "The search query for GitHub issues, e.g., 'bug in login module' or 'database connection error'.";
                   Enum := [] |} ]};
         Executor := searchGithubIssues ghOwner ghRepo (SearchIssues ghClient) |};
      {| Name := "create_github_issue";
         Description := "Creates a new GitHub issue in the specified repository. Provide a title, detailed body, and labels.";
         Params :=
           <[ "title" :=
                {| FieldType := "string";
                   FieldDescription := "The title of the new GitHub issue (e.g., 'Bug: Login failure on homepage').";
                   Enum := [] |} ]>
           (<[ "body" :=
                {| FieldType := "string";
                   FieldDescription := "The detailed description for the GitHub issue, including stack traces or context.";
                   Enum := [] |} ]>
           {[ "labels" :=
                {| FieldType := "array";
                   FieldDescription := "An array of labels to apply to the issue, e.g., ['bug', 'llm created'].";
                   Enum := ["bug"; "llm created"; "enhancement"] |} ]});
         Executor := createGithubIssues ghOwner ghRepo (CreateIssue ghClient) |} ] in
  {| PipelineName := "GitHubIssueTriage";
     NodeID := "github-triage-agent";
     SystemPrompt := agentSystemPrompt ghOwner ghRepo;
     Tools := tools;
     LLMKey := openaiAPIKey;
     LLMModel := "gpt-4o-mini" |}.

(** [os.Getenv]: the value of the variable, empty when it is not set. *)
Definition Getenv (env : gmap string string) (key : string) : string :=
  default "" (env !! key).

(** How [main] ends: [log.Fatal], or blocked in [http.ListenAndServe] on
    [addr] with [handleProcessError] registered under [pattern]. *)
Inductive Startup :=
| Fatal (msg : string)
| Serving (addr pattern : string) (pipeline : Pipeline).

(** [main].  [env] is the process environment once [godotenv.Load] has
    run (its failure is only logged); [newClient] stands for
    [github.NewClient(oauth2.NewClient(ctx, ts))] on the token. *)
Definition main (newClient : string -> GhClient) (env : gmap string string)
  : Startup :=
  let openaiAPIKey := Getenv env "OPENAI_API_KEY" in
  let githubToken := Getenv env "GITHUB_TOKEN" in
  let ghOwner := Getenv env "GITHUB_OWNER" in
  let ghRepo := Getenv env "GITHUB_REPO" in
  if (String.eqb openaiAPIKey "" || String.eqb githubToken ""
      || String.eqb ghOwner "" || String.eqb ghRepo "")%bool
  then Fatal "Error: OPENAI_API_KEY, GITHUB_TOKEN, GITHUB_OWNER, and GITHUB_REPO environment variables must be set."
  else
    let ghClient := newClient githubToken in
    Serving ":8000" "POST /process_error"
      (initializeAIPipeline ghOwner ghRepo ghClient openaiAPIKey).

(** A tracker client made of the two scripted operations. *)
Definition mockClient (found : list Issue) (url : string) : GhClient :=
  {| SearchIssues := fun _ => inr found;
     CreateIssue := fun _ _ req =>
       inr {| Title := Some (ReqTitle req); HTMLURL := Some url |} |}.

(** ** Reading the JSON object of a response *)

(** The value of the first member named [key], if any. *)
Fixpoint member (key : string) (members : list (string * string))
  : option string :=
  match members with
  | [] => None
  | (k, v) :: members' =>
      if String.eqb k key then Some v else member key members'
  end.

(** ** Vocabulary of the specification *)

(** [sub] occurs in [s] as a substring. *)
Definition occursIn (sub s : string) : Prop :=
  exists pre post, s = pre +:+ sub +:+ post.

(** The string elements of a JSON array, in order: what the array holds
    once every element of another dynamic type is left out. *)
Definition stringEntries (l : list any) : list string :=
  flat_map (fun v => match v with AnyString s => [s] | _ => [] end) l.

(** The dynamic type of a map entry is [string] (the entry exists). *)
Definition isString (v : option any) : bool :=
  match v with
  | Some (AnyString _) => true
  | _ => false
  end.

(** The dynamic type of a map entry is [[]any]. *)
Definition isSlice (v : option any) : bool :=
  match v with
  | Some (AnySlice _) => true
  | _ => false
  end.

(** The labels the tool declaration enumerates (main.go, line 94). *)
Definition labelEnum : list string := ["bug"; "llm created"; "enhancement"].

(** An issue as the gateway contract describes it: a title and a URL. *)
Definition mkIssue (m : string * string) : Issue :=
  {| Title := Some (fst m); HTMLURL := Some (snd m) |}.

(** One line of the search tool's listing. *)
Definition matchLine (m : string * string) : string :=
  "- Title: " +:+ dq +:+ fst m +:+ dq +:+ ", URL: " +:+ snd m.

(** Both pointer fields of an issue are set. *)
Definition issueComplete (i : Issue) : bool :=
  match Title i, HTMLURL i with
  | Some _, Some _ => true
  | _, _ => false
  end.

(** The query the search executor sends for the engine's [query]. *)
Definition scopedQuery (owner repo query : string) : string :=
  query +:+ " is:issue in:title,body repo:" +:+ owner +:+ "/" +:+ repo.

(** The run identifier the handler derives from an error log. *)
Definition runIDOf (log : string) : string :=
  "run-id" +:+ String.substring 0 10 log.

(** No byte of [s] belongs to [chars]. *)
Fixpoint noByteIn (chars s : string) : bool :=
  match s with
  | EmptyString => true
  | String c s' => negb (Strings.containsByte chars c) && noByteIn chars s'
  end.



(** A byte that stands for itself inside a JSON string literal: ASCII,
    not a control character, not a quote, not a backslash. *)
Definition plainByte (c : ascii) : bool :=
  ((32 <=? UTF8.byteVal c)%N && (UTF8.byteVal c <? 128)%N
   && negb (JSON.eqc c DQ) && negb (JSON.eqc c JSON.BS))%bool.

(** Every byte of [s] is plain. *)
Fixpoint plainBytes (s : string) : bool :=
  match s with
  | EmptyString => true
  | String c s' => plainByte c && plainBytes s'
  end.

(** ** Invariants of the scanner

    What holds of the scanner while it reads the first value of a body,
    and of the value under construction beside it. *)

(** The scanner is inside the first value: no error, the value not yet
    complete. *)
Definition scanning (s : JSON.scanner) : Prop :=
  JSON.err s = None /\ JSON.endTop s = false /\
  JSON.step s <> JSON.stateEndTop /\
  (JSON.step s = JSON.stateBeginValueOrEmpty -> JSON.parseState s <> []).

(** The states in which a top-level value may end at the next byte. *)
Definition endsValue (f : JSON.StepFn) : bool :=
  match f with
  | JSON.stateEndValue | JSON.state1 | JSON.state0 | JSON.stateDot0
  | JSON.stateE0 => true
  | _ => false
  end.

(** No literal is being read. *)
Definition noLit (l : option string) : bool :=
  match l with None => true | Some _ => false end.

(** The literal being read is a string. *)
Definition startsQuote (l : option string) : bool :=
  match l with
  | Some (String c _) => JSON.eqc c DQ
  | _ => false
  end.

(** The states inside a string literal, before its closing quote. *)
Definition inString (f : JSON.StepFn) : bool :=
  match f with
  | JSON.stateInString | JSON.stateInStringEsc | JSON.stateInStringEscU
  | JSON.stateInStringEscU1 | JSON.stateInStringEscU12
  | JSON.stateInStringEscU123 => true
  | _ => false
  end.

(** The states inside a literal of any kind. *)
Definition inLiteral (f : JSON.StepFn) : bool :=
  match f with
  | JSON.stateBeginValue | JSON.stateBeginValueOrEmpty
  | JSON.stateBeginStringOrEmpty | JSON.stateBeginString
  | JSON.stateEndValue | JSON.stateEndTop | JSON.stateError => false
  | _ => true
  end.

(** A value is awaited, or one is being read. *)
Definition atValue (st : JSON.StepFn) (l : option string) : bool :=
  match st with
  | JSON.stateBeginValue => noLit l
  | JSON.stateEndValue => negb (noLit l)
  | _ => inLiteral st && negb (noLit l)
  end.

(** The innermost frame against the innermost parse state. *)
Definition innermost (st : JSON.StepFn) (p : JSON.ParseState) (f : JSON.Frame)
    (l : option string) : bool :=
  match p, f with
  | JSON.parseArrayValue, JSON.FArray _ =>
      match st with
      | JSON.stateBeginValue | JSON.stateBeginValueOrEmpty => noLit l
      | JSON.stateEndValue => true
      | _ => inLiteral st && negb (noLit l)
      end
  | JSON.parseObjectKey, JSON.FObject _ None =>
      match st with
      | JSON.stateBeginString | JSON.stateBeginStringOrEmpty => noLit l
      | JSON.stateEndValue => startsQuote l
      | _ => inString st && startsQuote l
      end
  | JSON.parseObjectKey, JSON.FObject _ (Some _) =>
      match st with JSON.stateEndValue => noLit l | _ => false end
  | JSON.parseObjectValue, JSON.FObject _ (Some _) => atValue st l
  | JSON.parseObjectValue, JSON.FObject _ None =>
      match st with JSON.stateEndValue => noLit l | _ => false end
  | _, _ => false
  end.

(** The frames below the innermost one each await the value above them. *)
Fixpoint below (fs : list JSON.Frame) (ps : list JSON.ParseState) : bool :=
  match fs, ps with
  | [], [] => true
  | JSON.FArray _ :: fs', JSON.parseArrayValue :: ps' => below fs' ps'
  | JSON.FObject _ (Some _) :: fs', JSON.parseObjectValue :: ps' => below fs' ps'
  | _, _ => false
  end.

(** The value under construction keeps step with the scanner: one frame
    for each open object or array, and, once the scanner has seen the end
    of the top-level value, a finished value. *)
Definition building (s : JSON.scanner) (b : JSON.builder) : Prop :=
  JSON.err s = None /\
  match JSON.parseState s, JSON.frames b with
  | [], [] =>
      if JSON.endTop s
      then JSON.step s = JSON.stateEndTop /\ JSON.done (JSON.endLiteral b) <> None
      else atValue (JSON.step s) (JSON.lit b) = true
  | p :: ps, f :: fs =>
      JSON.endTop s = false /\ innermost (JSON.step s) p f (JSON.lit b) = true /\
      below fs ps = true
  | _, _ => False
  end.

(** ** Scripted collaborators

    The scenarios of the specification run against scripted stand-ins for
    the decoder, the reasoning pipeline and the issue tracker. *)

(** The body [{"error_log":"<log>"}]. *)
Definition jsonBody (log : string) : string :=
  "{" +:+ dq +:+ "error_log" +:+ dq +:+ ":" +:+ dq +:+ log +:+ dq +:+ "}".

(** A decoder that answers [result] whatever the body. *)
Definition mockDecode (result : error + ErrorLogRequest)
  : string -> error + ErrorLogRequest := fun _ => result.

(** A pipeline that calls no tool and answers [answer]. *)
Definition mockPipeline (answer : string * option error)
  : string -> string -> list Event * (string * option error) :=
  fun _ _ => ([], answer).

(** A tracker whose search finds [found] for every query. *)
Definition mockSearch (found : list Issue) : string -> error + list Issue :=
  fun _ => inr found.

(** A tracker that files every request under [url]. *)
Definition mockCreate (url : string)
  : string -> string -> IssueRequest -> error + Issue :=
  fun _ _ req => inr {| Title := Some (ReqTitle req); HTMLURL := Some url |}.

(** A pipeline whose engine searches for the log and gives the tool's text
    as its final answer. *)
Definition searchingPipeline (owner repo : string)
    (search : string -> error + list Issue)
  : string -> string -> list Event * (string * option error) :=
  fun input _ =>
    match searchGithubIssues owner repo search {[ "query" := AnyString input ]} with
    | (calls, Returned answer) => (calls, answer)
    | (calls, Panicked _) => (calls, ("", Some "tool panicked"))
    end.

(** A final answer that ends in two bytes that are not UTF-8. *)
Definition invalidAnswer : string := "All good " +:+ Strings.bytes [255; 254]%nat.


(** An [Error()] method that answers [text] for every error. *)
Definition mockErrorText (text : string) : JSON.DecodeError -> string :=
  fun _ => text.

(** The final answers of the two scenarios. *)
Definition createdAnswer (title url : string) : string :=
  "GitHub issue created successfully! Title: " +:+ dq +:+ title +:+ dq
    +:+ ", URL: " +:+ url.

Definition foundOneAnswer (title url : string) : string :=
  "Found 1 existing issues:" +:+ nl +:+ matchLine (title, url).

Definition argsOf (title body : string) (labels : list any) : gmap string any :=
  <[ "labels" := AnySlice labels ]>
    (<[ "body" := AnyString body ]> {[ "title" := AnyString title ]}).

#[global] Arguments Strings.slice : simpl never.
#[global] Arguments Strings.sliceFrom : simpl never.
#[global] Arguments Strings.Index : simpl never.
#[global] Arguments Strings.IndexAny : simpl never.
#[global] Arguments Strings.TrimSpace : simpl never.
#[global] Arguments Strings.len : simpl never.

Ltac eff :=
  unfold mbind, mret, Eff_bind, Eff_ret, sliced, deref, call, panic in *;
  simpl in *.

(** Case analysis over one step of the scanner, in the goal and in a
    hypothesis. *)
Ltac scan_cases :=
  repeat match goal with
         | |- context [if ?b then _ else _] => destruct b eqn:?
         | |- context [match ?l with [] => _ | _ :: _ => _ end] => destruct l
         | |- context [match ?p with JSON.parseObjectKey => _ | _ => _ end] => destruct p
         end.

Ltac scan_unfold :=
  unfold JSON.scanStep; cbn [JSON.step];
  unfold JSON.stateBeginValueOrEmptyFn, JSON.stateBeginStringOrEmptyFn,
    JSON.stateBeginStringFn, JSON.stateBeginValueFn,
    JSON.stateInStringFn, JSON.stateInStringEscFn, JSON.stateHexFn,
    JSON.stateNegFn, JSON.state1Fn, JSON.state0Fn, JSON.stateDotFn,
    JSON.stateDot0Fn, JSON.stateEFn, JSON.stateESignFn, JSON.stateE0Fn,
    JSON.stateLetterFn, JSON.stateEndValueFn,
    JSON.stateEndTopFn, JSON.pushParseState, JSON.popParseState,
    JSON.setError, JSON.withStep, JSON.withTop;
  cbn [JSON.step JSON.parseState JSON.endTop JSON.err fst snd List.tl].

Ltac scan_in E :=
  unfold JSON.scanStep in E; cbn [JSON.step] in E;
  unfold JSON.stateBeginValueOrEmptyFn, JSON.stateBeginStringOrEmptyFn,
    JSON.stateBeginStringFn, JSON.stateBeginValueFn,
    JSON.stateInStringFn, JSON.stateInStringEscFn, JSON.stateHexFn,
    JSON.stateNegFn, JSON.state1Fn, JSON.state0Fn, JSON.stateDotFn,
    JSON.stateDot0Fn, JSON.stateEFn, JSON.stateESignFn, JSON.stateE0Fn,
    JSON.stateLetterFn, JSON.stateEndValueFn,
    JSON.stateEndTopFn, JSON.pushParseState, JSON.popParseState,
    JSON.setError, JSON.withStep, JSON.withTop in E;
  cbn [JSON.step JSON.parseState JSON.endTop JSON.err fst snd List.tl] in E;
  repeat match type of E with
         | context [if ?b then _ else _] => destruct b eqn:?
         | context [match ?l with [] => _ | _ :: _ => _ end] => destruct l
         | context [match ?p with JSON.parseObjectKey => _ | _ => _ end] => destruct p
         end;
  injection E as <- <-.


(** ** Facts about the [strings] package *)

Lemma len_nonneg s : (0 <= Strings.len s)%Z.
Proof. unfold Strings.len. lia. Qed.

Lemma len_String c s : Strings.len (String c s) = (Strings.len s + 1)%Z.
Proof. unfold Strings.len. simpl String.length. lia. Qed.

Lemma HasPrefix_len s p :
  Strings.HasPrefix s p = true -> (Strings.len p <= Strings.len s)%Z.
Proof.
  revert s. induction p as [|a p IH]; intros s H.
  - apply len_nonneg.
  - destruct s as [|c s]; simpl in H; [discriminate|].
    apply andb_prop in H as [_ H]. apply IH in H.
    rewrite !len_String. lia.
Qed.

Lemma HasPrefix_app s p :
  Strings.HasPrefix s p = true <-> exists t, s = p +:+ t.
Proof.
  revert s. induction p as [|a p IH]; intros s; simpl.
  - split; [intros _; exists s; reflexivity | destruct s; reflexivity].
  - destruct s as [|c s]; simpl.
    + split; [discriminate | intros [t Ht]; discriminate].
    + rewrite andb_true_iff, IH. split.
      * intros [Hc [t ->]]. apply Ascii.eqb_eq in Hc. subst. eauto.
      * intros [t Ht]. injection Ht as -> ->.
        split; [apply Ascii.eqb_refl | eauto].
Qed.

Lemma indexFrom_nil i sub :
  Strings.indexFrom i "" sub = if Strings.HasPrefix "" sub then i else (-1)%Z.
Proof. reflexivity. Qed.

Lemma indexFrom_String i c s sub :
  Strings.indexFrom i (String c s) sub =
  if Strings.HasPrefix (String c s) sub then i
  else Strings.indexFrom (i + 1) s sub.
Proof. reflexivity. Qed.

Lemma indexFrom_bounds sub s i :
  Strings.indexFrom i s sub = (-1)%Z \/
  (i <= Strings.indexFrom i s sub /\
   Strings.indexFrom i s sub - i + Strings.len sub <= Strings.len s)%Z.
Proof.
  revert i. induction s as [|c s IH]; intros i.
  - rewrite indexFrom_nil.
    destruct (Strings.HasPrefix "" sub) eqn:E; [|now left].
    right. apply HasPrefix_len in E. lia.
  - rewrite indexFrom_String.
    destruct (Strings.HasPrefix (String c s) sub) eqn:E.
    + right. apply HasPrefix_len in E. lia.
    + destruct (IH (i + 1)%Z) as [->|[H1 H2]]; [now left|].
      right. rewrite len_String. lia.
Qed.

Lemma indexFrom_found sub s i :
  Strings.indexFrom i s sub <> (-1)%Z -> occursIn sub s.
Proof.
  revert i. induction s as [|c s IH]; intros i.
  - rewrite indexFrom_nil.
    destruct (Strings.HasPrefix "" sub) eqn:E; [|congruence].
    intros _. apply HasPrefix_app in E as [t Ht]. now exists "", t.
  - rewrite indexFrom_String.
    destruct (Strings.HasPrefix (String c s) sub) eqn:E.
    + intros _. apply HasPrefix_app in E as [t Ht]. now exists "", t.
    + intros H. apply IH in H as (pre & post & ->).
      now exists (String c pre), post.
Qed.

Lemma indexFrom_absent sub s i :
  (0 <= i)%Z -> Strings.indexFrom i s sub = (-1)%Z -> ~ occursIn sub s.
Proof.
  revert i. induction s as [|c s IH]; intros i Hi.
  - rewrite indexFrom_nil.
    destruct (Strings.HasPrefix "" sub) eqn:E; [lia|].
    intros _ (pre & post & H). destruct pre; [|discriminate].
    simpl in H. assert (Strings.HasPrefix "" sub = true); [|congruence].
    apply HasPrefix_app. eauto.
  - rewrite indexFrom_String.
    destruct (Strings.HasPrefix (String c s) sub) eqn:E; [lia|].
    intros H (pre & post & Hs). destruct pre as [|a pre].
    + simpl in Hs.
      assert (Strings.HasPrefix (String c s) sub = true); [|congruence].
      apply HasPrefix_app. eauto.
    + injection Hs as -> ->.
      apply (IH (i + 1)%Z); [lia|assumption|]. now exists pre, post.
Qed.

(** [strings.Index] answers [-1] exactly when there is no occurrence. *)
Lemma Index_absent_iff s sub :
  Strings.Index s sub = (-1)%Z <-> ~ occursIn sub s.
Proof.
  split.
  - apply indexFrom_absent. lia.
  - intros H. destruct (Z.eq_dec (Strings.Index s sub) (-1)) as [E|E]; [exact E|].
    exfalso. apply H. exact (indexFrom_found _ _ _ E).
Qed.

Lemma indexAnyFrom_bounds chars s i :
  Strings.indexAnyFrom i s chars = (-1)%Z \/
  (i <= Strings.indexAnyFrom i s chars < i + Strings.len s)%Z.
Proof.
  revert i. induction s as [|c s IH]; intros i; simpl; [now left|].
  rewrite len_String. destruct (Strings.containsByte chars c).
  - right. pose proof (len_nonneg s). lia.
  - destruct (IH (i + 1)%Z) as [->|H]; [now left | right; lia].
Qed.

Lemma substring_length s n m :
  (n + m <= String.length s)%nat -> String.length (String.substring n m s) = m.
Proof.
  revert n m. induction s as [|c s IH]; intros n m H; simpl in H.
  - assert (n = 0%nat) by lia. assert (m = 0%nat) by lia. now subst.
  - destruct n as [|n]; simpl.
    + destruct m as [|m]; [reflexivity|]. simpl. f_equal. apply IH. lia.
    + apply IH. lia.
Qed.

Lemma slice_in_bounds s lo hi :
  (0 <= lo <= hi)%Z -> (hi <= Strings.len s)%Z ->
  exists u, Strings.slice s lo hi = Some u /\ Strings.len u = (hi - lo)%Z.
Proof.
  intros H1 H2. unfold Strings.slice.
  replace (0 <=? lo)%Z with true by (symmetry; apply Z.leb_le; lia).
  replace (lo <=? hi)%Z with true by (symmetry; apply Z.leb_le; lia).
  replace (hi <=? Strings.len s)%Z with true by (symmetry; apply Z.leb_le; lia).
  simpl. eexists; split; [reflexivity|].
  unfold Strings.len in *. rewrite substring_length; lia.
Qed.

Lemma sliceTo_short s hi :
  (Strings.len s < hi)%Z -> Strings.sliceTo s hi = None.
Proof.
  intros H. unfold Strings.sliceTo, Strings.slice.
  replace (hi <=? Strings.len s)%Z with false by (symmetry; apply Z.leb_gt; lia).
  now rewrite andb_false_r.
Qed.

(** ** Facts about the response synthesizer *)

(** The URL scan never leaves the bounds of the string: it returns, made no
    outside call, and touched at most the [IssueURL] field. *)
Lemma parseIssueURL_returns finalOutput resp :
  exists u,
    parseIssueURL finalOutput resp = ([], Returned (setIssueURL resp u)) /\
    (Strings.Index finalOutput "URL: " = (-1)%Z -> u = IssueURL resp).
Proof.
  unfold parseIssueURL.
  destruct (Z.eqb_spec (Strings.Index finalOutput "URL: ") (-1)) as [E|E]; simpl.
  - exists (IssueURL resp). split; [|reflexivity]. now destruct resp.
  - destruct (indexFrom_bounds "URL: " finalOutput 0) as [H|[H1 H2]];
      [contradiction|].
    fold (Strings.Index finalOutput "URL: ") in H1, H2.
    change (Strings.len "URL: ") with 5%Z in H2.
    set (idx := Strings.Index finalOutput "URL: ") in *.
    destruct (slice_in_bounds finalOutput (idx + 5) (Strings.len finalOutput))
      as (rest & Hrest & Hlen); [lia|lia|].
    unfold Strings.sliceFrom. rewrite Hrest. eff.
    fold (Strings.sliceFrom finalOutput (idx + 5)).
    destruct (Z.eqb_spec (Strings.IndexAny rest (" " +:+ nl)) (-1)) as [F|F];
      simpl.
    + eexists. split; [reflexivity|]. intros; contradiction.
    + destruct (indexAnyFrom_bounds (" " +:+ nl) rest 0) as [G|G];
        [contradiction|].
      fold (Strings.IndexAny rest (" " +:+ nl)) in G.
      destruct (slice_in_bounds finalOutput (idx + 5)
                  (idx + 5 + Strings.IndexAny rest (" " +:+ nl)))
        as (u & Hu & _); [lia|lia|].
      rewrite Hu. eff. eexists. split; [reflexivity|]. intros; contradiction.
Qed.

(** The synthesizer always returns: status ["success"], the final output as
    the message, and some (possibly empty) URL. *)
Lemma synthesize_returns finalOutput :
  exists u,
    synthesize finalOutput =
      ([], Returned {| Status := "success"; Message := finalOutput;
                       IssueURL := u |}) /\
    (Strings.Index finalOutput "URL: " = (-1)%Z -> u = "").
Proof.
  unfold synthesize.
  set (resp := {| Status := "success"; Message := finalOutput; IssueURL := "" |}).
  destruct (Strings.Contains finalOutput "GitHub issue created successfully!");
    [apply (parseIssueURL_returns finalOutput resp)|].
  destruct (Strings.Contains finalOutput "Found existing issues:");
    [apply (parseIssueURL_returns finalOutput resp)|].
  exists "". split; reflexivity.
Qed.

Lemma member_issue_url_absent resp :
  IssueURL resp = "" -> member "issue_url" (encodeAPIResponse resp) = None.
Proof. intros H. unfold encodeAPIResponse. rewrite H. reflexivity. Qed.

(** ** Facts about the executors *)

Lemma collectLabels_acc l acc :
  collectLabels l acc = (acc ++ stringEntries l)%list.
Proof.
  revert acc. induction l as [|v l IH]; intros acc; simpl.
  - now rewrite app_nil_r.
  - destruct v; simpl; rewrite IH; try reflexivity.
    now rewrite <- app_assoc.
Qed.

Lemma collectLabels_entries l : collectLabels l [] = stringEntries l.
Proof. apply collectLabels_acc. Qed.

Lemma stringEntries_In l s : In s (stringEntries l) <-> In (AnyString s) l.
Proof.
  unfold stringEntries. rewrite in_flat_map. split.
  - intros (v & Hv & Hs). destruct v; simpl in Hs; try contradiction.
    destruct Hs as [->|[]]. exact Hv.
  - intros H. exists (AnyString s). split; [exact H | now left].
Qed.

Lemma formatIssues_complete ms results :
  formatIssues (List.map mkIssue ms) results =
    ([], Returned (results ++ List.map matchLine ms)%list).
Proof.
  revert results. induction ms as [|m ms IH]; intros results; simpl.
  - now rewrite app_nil_r.
  - eff. rewrite IH. simpl. now rewrite <- app_assoc.
Qed.

(** ** The request handler, path by path *)

Lemma handleProcessError_malformed jsonDecode pipeline r err :
  jsonDecode (ReqBytes r) = inl err ->
  handleProcessError jsonDecode pipeline r =
    ([], Returned (httpError ("Invalid request body: " +:+ err) StatusBadRequest)).
Proof. intros H. unfold handleProcessError. now rewrite H. Qed.

Lemma handleProcessError_empty jsonDecode pipeline r req :
  jsonDecode (ReqBytes r) = inr req -> ErrorLog req = "" ->
  handleProcessError jsonDecode pipeline r =
    ([], Returned (httpError "Error log cannot be empty" StatusBadRequest)).
Proof. intros H E. unfold handleProcessError. now rewrite H, E. Qed.

Lemma handleProcessError_short jsonDecode pipeline r req :
  jsonDecode (ReqBytes r) = inr req -> ErrorLog req <> "" ->
  Strings.sliceTo (ErrorLog req) 10 = None ->
  handleProcessError jsonDecode pipeline r = ([], Panicked SliceBoundsOutOfRange).
Proof.
  intros H E S. unfold handleProcessError. rewrite H, S.
  apply String.eqb_neq in E. now rewrite E.
Qed.

Lemma handleProcessError_failed jsonDecode pipeline r req head calls out e :
  jsonDecode (ReqBytes r) = inr req -> ErrorLog req <> "" ->
  Strings.sliceTo (ErrorLog req) 10 = Some head ->
  pipeline (ErrorLog req) ("run-id" +:+ head) = (calls, (out, Some e)) ->
  handleProcessError jsonDecode pipeline r =
    (EvPipelineRun (ErrorLog req) ("run-id" +:+ head) :: calls,
     Returned (httpError ("Agent failed to process error: " +:+ e)
                 StatusInternalServerError)).
Proof.
  intros H E S P. unfold handleProcessError. rewrite H, S.
  apply String.eqb_neq in E. rewrite E. eff. rewrite P. eff.
  now rewrite app_nil_r.
Qed.

Lemma handleProcessError_done jsonDecode pipeline r req head calls out :
  jsonDecode (ReqBytes r) = inr req -> ErrorLog req <> "" ->
  Strings.sliceTo (ErrorLog req) 10 = Some head ->
  pipeline (ErrorLog req) ("run-id" +:+ head) = (calls, (out, None)) ->
  exists u,
    handleProcessError jsonDecode pipeline r =
      (EvPipelineRun (ErrorLog req) ("run-id" +:+ head) :: calls,
       Returned (jsonResponse {| Status := "success"; Message := out;
                                 IssueURL := u |})) /\
    (Strings.Index out "URL: " = (-1)%Z -> u = "").
Proof.
  intros H E S P. unfold handleProcessError. rewrite H, S.
  apply String.eqb_neq in E. rewrite E. eff. rewrite P. eff.
  destruct (synthesize_returns out) as (u & -> & Hu). eff.
  exists u. split; [|exact Hu]. now rewrite !app_nil_r.
Qed.

(** ** Facts about UTF-8 *)

Lemma ValidString_eq b0 s1 :
  UTF8.ValidString (String b0 s1) =
  match UTF8.runeWidth (String b0 s1), s1 with
  | 1%nat, _ => UTF8.ValidString s1
  | 2%nat, String _ s2 => UTF8.ValidString s2
  | 3%nat, String _ (String _ s3) => UTF8.ValidString s3
  | 4%nat, String _ (String _ (String _ s4)) => UTF8.ValidString s4
  | _, _ => false
  end.
Proof. reflexivity. Qed.

Lemma replaceInvalid_eq b0 s1 :
  UTF8.replaceInvalid (String b0 s1) =
  match UTF8.runeWidth (String b0 s1), s1 with
  | 1%nat, _ => String b0 (UTF8.replaceInvalid s1)
  | 2%nat, String b1 s2 => String b0 (String b1 (UTF8.replaceInvalid s2))
  | 3%nat, String b1 (String b2 s3) =>
      String b0 (String b1 (String b2 (UTF8.replaceInvalid s3)))
  | 4%nat, String b1 (String b2 (String b3 s4)) =>
      String b0 (String b1 (String b2 (String b3 (UTF8.replaceInvalid s4))))
  | _, _ => UTF8.replacementChar +:+ UTF8.replaceInvalid s1
  end.
Proof. reflexivity. Qed.

(** Valid UTF-8 passes through the coercion unchanged. *)
Lemma replaceInvalid_valid_bounded n :
  forall s, (String.length s <= n)%nat ->
  UTF8.ValidString s = true -> UTF8.replaceInvalid s = s.
Proof.
  induction n as [|n IH]; intros s Hn Hv.
  - destruct s; [reflexivity | simpl in Hn; lia].
  - destruct s as [|b0 s1]; [reflexivity|].
    rewrite ValidString_eq in Hv. rewrite replaceInvalid_eq.
    destruct (UTF8.runeWidth (String b0 s1)) as [|[|[|[|[|k]]]]];
      try discriminate.
    + f_equal. apply IH; [simpl in Hn; lia | exact Hv].
    + destruct s1 as [|b1 s2]; [discriminate|].
      do 2 f_equal. apply IH; [simpl in Hn; lia | exact Hv].
    + destruct s1 as [|b1 [|b2 s3]]; try discriminate.
      do 3 f_equal. apply IH; [simpl in Hn; lia | exact Hv].
    + destruct s1 as [|b1 [|b2 [|b3 s4]]]; try discriminate.
      do 4 f_equal. apply IH; [simpl in Hn; lia | exact Hv].
Qed.

Lemma replaceInvalid_valid s :
  UTF8.ValidString s = true -> UTF8.replaceInvalid s = s.
Proof. apply (replaceInvalid_valid_bounded (String.length s)). lia. Qed.

(** ** Facts about the JSON decoder *)

Lemma scanStep_cases s c s' op :
  scanning s ->
  JSON.scanStep s c = (s', op) ->
  match op with
  | JSON.scanError => True
  | JSON.scanEnd => JSON.parseState s = [] /\ endsValue (JSON.step s) = true
  | JSON.scanEndObject | JSON.scanEndArray =>
      JSON.err s' = None /\
      ((JSON.parseState s' = [] /\ JSON.endTop s' = true) \/
       (JSON.parseState s' <> [] /\ scanning s' /\
        JSON.step s' = JSON.stateEndValue))
  | _ => scanning s'
  end.
Proof.
  destruct s as [st ps et er]. unfold scanning. simpl.
  intros (-> & -> & Hst & Hps).
  destruct st; try (now contradiction Hst); clear Hst;
    try (specialize (Hps eq_refl));
    scan_unfold; scan_cases;
    intros [= <- <-];
    cbn [JSON.step JSON.parseState JSON.endTop JSON.err fst snd List.tl];
    try exact I;
    try (repeat split; congruence);
    try (split; [reflexivity|]; right; repeat split; congruence);
    try (split; [reflexivity|]; left; repeat split; congruence).
Qed.

Lemma space_ends_value s :
  JSON.parseState s = [] -> endsValue (JSON.step s) = true ->
  snd (JSON.scanStep s " ") = JSON.scanEnd /\
  JSON.endTop (fst (JSON.scanStep s " ")) = true.
Proof.
  destruct s as [st ps et er]. simpl. intros -> H.
  destruct st; try discriminate; split; reflexivity.
Qed.

Lemma eofEnds_at_end s c s' :
  scanning s -> JSON.scanStep s c = (s', JSON.scanEnd) ->
  JSON.eofEnds s = true.
Proof.
  intros Hs E. pose proof (scanStep_cases _ _ _ _ Hs E) as [Hp He].
  destruct Hs as (Herr & Htop & _). unfold JSON.eofEnds. rewrite Herr, Htop.
  exact (proj2 (space_ends_value s Hp He)).
Qed.

Lemma scanning_reset : scanning JSON.reset.
Proof. repeat split; simpl; congruence. Qed.

Lemma more_value c r v rest :
  JSON.more c r = JSON.ReadValue v rest ->
  exists v0, v = String c v0 /\ r = JSON.ReadValue v0 rest.
Proof. destruct r; simpl; intros [= <- <-] || discriminate. eauto. Qed.

Lemma close_container s :
  JSON.err s = None ->
  (JSON.parseState s = [] /\ JSON.endTop s = true) \/
  (JSON.parseState s <> [] /\ scanning s /\ JSON.step s = JSON.stateEndValue) ->
  (snd (JSON.stateEndValueFn s " ") = JSON.scanEnd /\ JSON.eofEnds s = true) \/
  (JSON.stateEndValueFn s " " = (s, JSON.scanSkipSpace) /\ scanning s).
Proof.
  destruct s as [st ps et er]. simpl.
  intros -> [[-> ->]|(Hne & Hs & ->)].
  - left. split; reflexivity.
  - right. destruct ps as [|p ps]; [now contradiction Hne|].
    split; [reflexivity | exact Hs].
Qed.

(** The bytes [readValue] takes for the first value are a prefix of the
    input and make a valid JSON text on their own. *)
Lemma readLoop_sound buf :
  forall s v rest,
    scanning s -> JSON.readLoop s buf = JSON.ReadValue v rest ->
    buf = v +:+ rest /\ JSON.checkValidFrom s v = true.
Proof.
  induction buf as [|c buf IH]; intros s v rest Hs H.
  - simpl in H. destruct (JSON.scanStep s " ") as [s' op] eqn:E.
    simpl in H. destruct op; try discriminate. injection H as <- <-.
    split; [reflexivity|]. simpl. exact (eofEnds_at_end _ _ _ Hs E).
  - simpl in H. destruct (JSON.scanStep s c) as [s' op] eqn:E.
    pose proof (scanStep_cases _ _ _ _ Hs E) as C.
    destruct op;
      try (apply more_value in H as (v0 & -> & R);
           destruct (IH _ _ _ C R) as [-> V];
           split; [reflexivity | simpl; rewrite E; exact V]).
    + destruct C as [Herr C].
      destruct (close_container _ Herr C) as [[E2 V]|[E2 Hs']].
      * destruct (JSON.stateEndValueFn s' " ") as [s2 op2]. simpl in E2. subst op2.
        injection H as <- <-. split; [reflexivity|]. simpl. now rewrite E.
      * rewrite E2 in H. apply more_value in H as (v0 & -> & R).
        destruct (IH _ _ _ Hs' R) as [-> V].
        split; [reflexivity | simpl; rewrite E; exact V].
    + destruct C as [Herr C].
      destruct (close_container _ Herr C) as [[E2 V]|[E2 Hs']].
      * destruct (JSON.stateEndValueFn s' " ") as [s2 op2]. simpl in E2. subst op2.
        injection H as <- <-. split; [reflexivity|]. simpl. now rewrite E.
      * rewrite E2 in H. apply more_value in H as (v0 & -> & R).
        destruct (IH _ _ _ Hs' R) as [-> V].
        split; [reflexivity | simpl; rewrite E; exact V].
    + injection H as <- <-. split; [reflexivity|].
      simpl. exact (eofEnds_at_end _ _ _ Hs E).
    + discriminate.
Qed.

Lemma readValue_sound body v rest :
  JSON.readValue body = inr (v, rest) ->
  body = v +:+ rest /\ JSON.Valid v = true.
Proof.
  unfold JSON.readValue.
  destruct (JSON.readLoop JSON.reset body) as [v0 rest0| |] eqn:R; try discriminate.
  intros [= <- <-]. exact (readLoop_sound _ _ _ _ scanning_reset R).
Qed.


Lemma literalValue_quote l :
  startsQuote (Some l) = true -> JSON.literalValue l = JSON.JString l.
Proof. destruct l as [|c l]; simpl; [discriminate|]. now intros ->. Qed.

Lemma startsQuote_app l x :
  startsQuote (Some l) = true -> startsQuote (Some (l +:+ x)) = true.
Proof. destruct l as [|c l]; [discriminate|]. exact (fun H => H). Qed.

(** One byte on, the value under construction still keeps step with the
    scanner, unless the byte is an error the scanner reports next. *)
Lemma building_step s b c s' op :
  building s b ->
  JSON.scanStep s c = (s', op) ->
  op <> JSON.scanError ->
  building s' (JSON.feed b op c) \/
  (JSON.err s' <> None /\ JSON.step s' = JSON.stateError).
Proof.
  destruct s as [st ps et er], b as [fs l d]. unfold building. simpl.
  intros [-> H] E Hop.
  destruct ps as [|p ps], fs as [|f fs]; try contradiction.
  - destruct et.
    + destruct H as [-> H]. scan_in E.
      * left. split; [reflexivity|]. simpl. destruct l; simpl; auto.
      * right. split; [discriminate | reflexivity].
    + destruct st; try discriminate H; destruct l as [l|]; try discriminate H;
        scan_in E; try (now contradiction Hop).
      all: try (right; split; [discriminate | reflexivity]).
      all: left; simpl; split; [reflexivity|]; auto.
      all: try (split; [reflexivity|]; discriminate).
  - destruct H as (-> & H & U).
    destruct st, p, f as [es|ms [k|]]; try discriminate H;
      destruct l as [l|]; try discriminate H;
      scan_in E; try (now contradiction Hop).
    all: left; split; [reflexivity|].
    all: cbn [JSON.feed JSON.endLiteral JSON.lit JSON.frames JSON.done JSON.deliver
              JSON.parseState JSON.step JSON.endTop].
    all: try rewrite (literalValue_quote _ H).
    all: cbn [JSON.feed JSON.endLiteral JSON.lit JSON.frames JSON.done JSON.deliver
              JSON.parseState JSON.step JSON.endTop innermost atValue noLit inLiteral
              inString negb andb].
    all: try (repeat split; auto using startsQuote_app; fail).
    all: try (destruct fs as [|[?|? [?|]] ?]; simpl in U; try discriminate U;
              try (destruct p; try discriminate U);
              simpl; repeat split; auto; discriminate).
Qed.

Lemma building_reset :
  building JSON.reset {| JSON.frames := []; JSON.lit := None; JSON.done := None |}.
Proof. split; reflexivity. Qed.

Lemma failed_invalid data :
  forall s, JSON.err s <> None -> JSON.step s = JSON.stateError ->
            JSON.checkValidFrom s data = false.
Proof.
  destruct data as [|c data]; intros [st ps et er]; simpl; intros He ->.
  - unfold JSON.eofEnds. simpl. now destruct er.
  - reflexivity.
Qed.

Lemma building_end s b :
  building s b -> JSON.eofEnds s = true ->
  JSON.done (JSON.endLiteral b) <> None.
Proof.
  destruct s as [st ps et er], b as [fs l d]. unfold building, JSON.eofEnds. simpl.
  intros [-> H]. destruct ps as [|p ps], fs as [|f fs]; try contradiction.
  - destruct et; [now destruct H|].
    destruct st; try discriminate H; destruct l as [l|]; try discriminate H;
      intros E; try discriminate E; simpl; discriminate.
  - destruct H as (-> & H & _).
    destruct st, p; try discriminate H; intros E; discriminate E.
Qed.

(** Bytes that make a valid JSON text spell a value. *)
Lemma buildFrom_done data :
  forall s b, building s b -> JSON.checkValidFrom s data = true ->
              JSON.done (JSON.buildFrom s b data) <> None.
Proof.
  induction data as [|c data IH]; intros s b B V; simpl in *.
  - exact (building_end _ _ B V).
  - destruct (JSON.scanStep s c) as [s' op] eqn:E.
    assert (Hop : op <> JSON.scanError) by (intros ->; discriminate V).
    destruct (building_step _ _ _ _ _ B E Hop) as [B'|[He Hs]].
    + apply (IH _ _ B'). now destruct op.
    + rewrite (failed_invalid data s' He Hs) in V. now destruct op.
Qed.

Lemma Valid_parse data :
  JSON.Valid data = true -> exists v, JSON.parse data = Some v.
Proof.
  intros V. unfold JSON.parse.
  pose proof (buildFrom_done data _ _ building_reset V) as H.
  destruct (JSON.done _) as [v|]; [eauto | now contradiction H].
Qed.

(** [Decode] never takes its last branch: it is [unmarshal] of the value
    that the first bytes of the body spell. *)
Lemma Decode_value body value rest :
  JSON.readValue body = inr (value, rest) ->
  exists v, JSON.parse value = Some v /\ Decode body = unmarshal v.
Proof.
  intros R. destruct (readValue_sound _ _ _ R) as [_ V].
  destruct (Valid_parse _ V) as [v P]. exists v. split; [exact P|].
  unfold Decode. now rewrite R, P.
Qed.




Lemma decodeBody_request errorText body req :
  Decode body = inr req -> decodeBody errorText body = inr req.
Proof. unfold decodeBody. now intros ->. Qed.

(** ** The request boundary *)

(** C1 (evaluated where the code breaks the claim): a request whose
    non-empty error log is shorter than ten bytes makes the handler panic on
    the slice [req.ErrorLog[:10]] before the pipeline is entered: no
    response is written, neither 200 nor 500. *)
Theorem C1_short_error_log_panics jsonDecode pipeline r req :
  jsonDecode (ReqBytes r) = inr req ->
  ErrorLog req <> "" ->
  (Strings.len (ErrorLog req) < 10)%Z ->
  handleProcessError jsonDecode pipeline r = ([], Panicked SliceBoundsOutOfRange).
Proof.
  intros H E L. apply (handleProcessError_short _ _ _ req H E).
  now apply sliceTo_short.
Qed.


(** C8 (as amended): whenever the pipeline is run and succeeds, the
    handler answers 200 with a JSON object whose [message] member is the
    pipeline's final output as JSON can carry it: every byte that is not
    part of a well-formed UTF-8 sequence is replaced by U+FFFD.  A final
    output that is valid UTF-8 is therefore carried unchanged, whatever
    the URL scan found. *)
Theorem C8_message_value jsonDecode pipeline r req head calls out :
  jsonDecode (ReqBytes r) = inr req ->
  Strings.sliceTo (ErrorLog req) 10 = Some head ->
  pipeline (ErrorLog req) ("run-id" +:+ head) = (calls, (out, None)) ->
  exists members,
    handleProcessError jsonDecode pipeline r =
      (EvPipelineRun (ErrorLog req) ("run-id" +:+ head) :: calls,
       Returned {| StatusCode := 200; ContentType := "application/json";
                   Body := JSONBody members |}) /\
    member "message" members = Some (UTF8.replaceInvalid out) /\
    (UTF8.ValidString out = true -> member "message" members = Some out).
Proof.
  intros H S P.
  assert (E : ErrorLog req <> "").
  { intros E. rewrite E in S. vm_compute in S. discriminate. }
  destruct (handleProcessError_done _ _ _ _ _ _ _ H E S P) as (u & -> & _).
  eexists. split; [reflexivity|]. split; [reflexivity|].
  intros V. simpl. now rewrite (replaceInvalid_valid _ V).
Qed.

(** C9: a JSON body written by the handler always carries status
    ["success"] (with code 200); the three failure paths (malformed JSON,
    empty [error_log], failed pipeline) answer in plain text. *)
Theorem C9_status_always_success jsonDecode pipeline r calls resp :
  handleProcessError jsonDecode pipeline r = (calls, Returned resp) ->
  (forall members, Body resp = JSONBody members ->
     member "status" members = Some "success" /\ StatusCode resp = 200) /\
  ((exists err, jsonDecode (ReqBytes r) = inl err) \/
   (exists req, jsonDecode (ReqBytes r) = inr req /\ ErrorLog req = "") \/
   (exists req head out e,
      jsonDecode (ReqBytes r) = inr req /\
      Strings.sliceTo (ErrorLog req) 10 = Some head /\
      snd (pipeline (ErrorLog req) ("run-id" +:+ head)) = (out, Some e)) ->
   exists text,
     Body resp = TextBody text /\
     ContentType resp = "text/plain; charset=utf-8" /\
     (StatusCode resp = 400 \/ StatusCode resp = 500)).
Proof.
  intros Hrun.
  destruct (jsonDecode (ReqBytes r)) as [err|req] eqn:H.
  { rewrite (handleProcessError_malformed _ _ _ _ H) in Hrun.
    injection Hrun as <- <-. split; [discriminate|].
    intros _. eexists. repeat split. now left. }
  destruct (String.eqb_spec (ErrorLog req) "") as [E|E].
  { rewrite (handleProcessError_empty _ _ _ _ H E) in Hrun.
    injection Hrun as <- <-. split; [discriminate|].
    intros _. eexists. repeat split. now left. }
  destruct (Strings.sliceTo (ErrorLog req) 10) as [head|] eqn:S.
  2:{ rewrite (handleProcessError_short _ _ _ _ H E S) in Hrun. discriminate. }
  destruct (pipeline (ErrorLog req) ("run-id" +:+ head))
    as [calls' [out [e|]]] eqn:P.
  - rewrite (handleProcessError_failed _ _ _ _ _ _ _ _ H E S P) in Hrun.
    injection Hrun as <- <-. split; [discriminate|].
    intros _. eexists. repeat split. now right.
  - destruct (handleProcessError_done _ _ _ _ _ _ _ H E S P) as (u & Hd & _).
    rewrite Hd in Hrun. injection Hrun as <- <-. split.
    + intros members Hm. injection Hm as <-. split; reflexivity.
    + intros [[err F]|[(req' & F & E')|(req' & head' & out' & e & F & S' & P')]].
      * discriminate.
      * injection F as <-. contradiction.
      * injection F as <-. rewrite S in S'. injection S' as <-.
        rewrite P in P'. discriminate.
Qed.

(** ** The response synthesizer *)

(** C5: the answer of a successful creation yields the issue URL
    [https://x/42]; an answer in which ["URL: "] does not occur yields no
    URL, and the [issue_url] member is left out of the response. *)
Theorem C5_url_extraction :
  synthesize (createdAnswer "X" "https://x/42") =
    ([], Returned {| Status := "success";
                     Message := createdAnswer "X" "https://x/42";
                     IssueURL := "https://x/42" |}) /\
  forall finalOutput,
    ~ occursIn "URL: " finalOutput ->
    exists resp,
      synthesize finalOutput = ([], Returned resp) /\
      IssueURL resp = "" /\
      member "issue_url" (encodeAPIResponse resp) = None.
Proof.
  split; [vm_compute; reflexivity|].
  intros finalOutput H. apply Index_absent_iff in H.
  destruct (synthesize_returns finalOutput) as (u & Hs & Hu).
  eexists. split; [exact Hs|]. rewrite (Hu H).
  split; [reflexivity | now apply member_issue_url_absent].
Qed.

(** C2 (evaluated where the code breaks the claim): the search tool's text
    for a single match at [https://x/42] begins with
    ["Found 1 existing issues:"] and contains ["URL: https://x/42"], yet
    the synthesizer leaves the URL empty and the response carries no
    [issue_url]: the marker it looks for, ["Found existing issues:"], has
    no count in it. *)
Theorem C2_found_answer_yields_no_url :
  let answer := foundOneAnswer "Bug: nil pointer in db" "https://x/42" in
  let tracker := mockSearch [mkIssue ("Bug: nil pointer in db", "https://x/42")] in
  searchGithubIssues "acme" "app" tracker {[ "query" := AnyString "nil pointer" ]}
    = ([EvSearchIssues "nil pointer is:issue in:title,body repo:acme/app"],
       Returned (answer, None)) /\
  Strings.HasPrefix answer "Found 1 existing issues:" = true /\
  Strings.Contains answer "URL: https://x/42" = true /\
  Strings.Contains answer "Found existing issues:" = false /\
  synthesize answer =
    ([], Returned {| Status := "success"; Message := answer; IssueURL := "" |}) /\
  snd (handleProcessError
         (mockDecode (inr {| ErrorLog := "nil pointer in db.go:54" |}))
         (searchingPipeline "acme" "app" tracker)
         {| ReqBytes := jsonBody "nil pointer in db.go:54" |})
    = Returned {| StatusCode := 200; ContentType := "application/json";
                  Body := JSONBody [("status", "success"); ("message", answer)] |}.
Proof. vm_compute. repeat split. Qed.

(** ** The tool executors *)

(** With a string title and a string body the executor makes exactly one
    call, to the tracker's create operation, and its result is the
    tracker's answer put into words. *)
Lemma createGithubIssues_valid owner repo create args title body :
  args !! "title" = Some (AnyString title) ->
  args !! "body" = Some (AnyString body) ->
  let labels :=
    match args !! "labels" with
    | Some (AnySlice l) => stringEntries l
    | _ => []
    end in
  let req := {| ReqTitle := title; ReqBody := body; ReqLabels := labels |} in
  createGithubIssues owner repo create args =
    ([EvCreateIssue owner repo req],
     match create owner repo req with
     | inl err => Returned ("Error creating GitHub issue: " +:+ err, Some err)
     | inr issue =>
         match Title issue, HTMLURL issue with
         | Some t, Some u => Returned (createdAnswer t u, None)
         | _, _ => Panicked NilPointerDereference
         end
     end).
Proof.
  intros Ht Hb labels req. unfold createGithubIssues. rewrite Ht, Hb.
  assert (E : collectLabels
                match args !! "labels" with
                | Some (AnySlice l) => l
                | _ => []
                end [] = labels).
  { subst labels. destruct (args !! "labels") as [[]|]; try reflexivity.
    apply collectLabels_entries. }
  rewrite E. fold req. eff.
  destruct (create owner repo req) as [err|[[t|] [u|]]]; reflexivity.
Qed.

(** C6: when the query is a string and the tracker's search answers a list
    of matches, the executor returns without error: the fixed sentence for
    the empty list, otherwise the count line followed by one line per
    match, joined by newlines. *)
Theorem C6_search_listing owner repo search args query ms :
  args !! "query" = Some (AnyString query) ->
  search (query +:+ " is:issue in:title,body repo:" +:+ owner +:+ "/" +:+ repo)
    = inr (List.map mkIssue ms) ->
  searchGithubIssues owner repo search args =
    ([EvSearchIssues
        (query +:+ " is:issue in:title,body repo:" +:+ owner +:+ "/" +:+ repo)],
     Returned
       (match ms with
        | [] => "No existing issues found for this query."
        | _ :: _ =>
            "Found " +:+ Strings.Itoa (Z.of_nat (length ms))
              +:+ " existing issues:" +:+ nl
              +:+ Strings.Join (List.map matchLine ms) nl
        end, None)).
Proof.
  intros Hq Hs. unfold searchGithubIssues. rewrite Hq. eff. rewrite Hs.
  destruct ms as [|m ms]; [reflexivity|].
  rewrite length_map.
  destruct (Z.eqb_spec (Z.of_nat (length (m :: ms))) 0) as [E|_];
    [simpl in E; lia|].
  rewrite formatIssues_complete. eff. reflexivity.
Qed.

(** C3 (as amended): the labels handed to the tracker are the string
    elements of the [labels] array, all of them and in order; membership in
    the enumerated set plays no part, so a string label is never dropped. *)
Theorem C3_labels_passed_unfiltered owner repo create args title body l :
  args !! "title" = Some (AnyString title) ->
  args !! "body" = Some (AnyString body) ->
  args !! "labels" = Some (AnySlice l) ->
  exists req,
    fst (createGithubIssues owner repo create args) = [EvCreateIssue owner repo req] /\
    ReqLabels req = stringEntries l /\
    forall s, In (AnyString s) l -> In s (ReqLabels req).
Proof.
  intros Ht Hb Hl. rewrite (createGithubIssues_valid _ _ _ _ _ _ Ht Hb), Hl.
  eexists. split; [reflexivity|]. split; [reflexivity|].
  intros s. apply stringEntries_In.
Qed.

(** C4 (as amended): when [title] or [body] is absent or is not a string,
    the executor returns an empty text with a "missing or invalid" error and
    does not call the tracker. *)
Theorem C4_missing_argument_rejected owner repo create args :
  isString (args !! "title") = false \/ isString (args !! "body") = false ->
  exists name,
    (name = "title" \/ name = "body") /\
    createGithubIssues owner repo create args =
      ([], Returned ("", Some ("missing or invalid '" +:+ name
                                 +:+ "' argument for create_github_issue"))).
Proof.
  intros H. unfold createGithubIssues.
  destruct (args !! "title") as [[| | |title| |]|] eqn:Ht;
    try (exists "title"; split; [now left | reflexivity]).
  destruct (args !! "body") as [[| | |body| |]|] eqn:Hb;
    try (exists "body"; split; [now right | reflexivity]).
  destruct H; discriminate.
Qed.

(** C10: with a string title and body, a [labels] argument that is absent
    or not an array does not make the executor fail: the tracker is called
    with no label, and the result is the tracker's.  From a [labels] array
    only string elements reach the tracker. *)
Theorem C10_labels_optional owner repo create args title body :
  args !! "title" = Some (AnyString title) ->
  args !! "body" = Some (AnyString body) ->
  exists labels,
    let req := {| ReqTitle := title; ReqBody := body; ReqLabels := labels |} in
    fst (createGithubIssues owner repo create args) = [EvCreateIssue owner repo req] /\
    (isSlice (args !! "labels") = false -> labels = []) /\
    (forall l, args !! "labels" = Some (AnySlice l) ->
       labels = stringEntries l /\
       forall s, In s labels -> In (AnyString s) l) /\
    (forall t u,
       create owner repo req = inr {| Title := Some t; HTMLURL := Some u |} ->
       snd (createGithubIssues owner repo create args) =
         Returned (createdAnswer t u, None)) /\
    (forall err,
       create owner repo req = inl err ->
       snd (createGithubIssues owner repo create args) =
         Returned ("Error creating GitHub issue: " +:+ err, Some err)).
Proof.
  intros Ht Hb. rewrite (createGithubIssues_valid _ _ _ _ _ _ Ht Hb).
  eexists. split; [reflexivity|]. split; [|split; [|split]].
  - destruct (args !! "labels") as [[]|]; try reflexivity. discriminate.
  - intros l ->. split; [reflexivity|]. intros s. apply stringEntries_In.
  - intros t u ->. reflexivity.
  - intros err ->. reflexivity.
Qed.

(** ** The claims at concrete inputs *)

Lemma C1_short_error_log_witness :
  handleProcessError
    (mockDecode (inr {| ErrorLog := "short" |}))
    (mockPipeline (createdAnswer "X" "https://x/42", None))
    {| ReqBytes := jsonBody "short" |}
  = ([], Panicked SliceBoundsOutOfRange).
Proof.
  apply (C1_short_error_log_panics _ _ _ {| ErrorLog := "short" |});
    [reflexivity | discriminate | reflexivity].
Defined.



Lemma C8_message_value_witness :
  exists members,
    handleProcessError
      (mockDecode (inr {| ErrorLog := "nil pointer in db.go:54" |}))
      (mockPipeline (createdAnswer "Bug: nil pointer in db" "https://x/42", None))
      {| ReqBytes := jsonBody "nil pointer in db.go:54" |}
    = ([EvPipelineRun "nil pointer in db.go:54" "run-idnil pointe"],
       Returned {| StatusCode := 200; ContentType := "application/json";
                   Body := JSONBody members |}) /\
    member "message" members
      = Some (createdAnswer "Bug: nil pointer in db" "https://x/42").
Proof.
  destruct (C8_message_value
              (mockDecode (inr {| ErrorLog := "nil pointer in db.go:54" |}))
              (mockPipeline (createdAnswer "Bug: nil pointer in db" "https://x/42", None))
              {| ReqBytes := jsonBody "nil pointer in db.go:54" |}
              {| ErrorLog := "nil pointer in db.go:54" |}
              "nil pointe" []
              (createdAnswer "Bug: nil pointer in db" "https://x/42")
              eq_refl eq_refl eq_refl) as (members & Hrun & _ & Hvalid).
  exists members. split; [exact Hrun | apply Hvalid; vm_compute; reflexivity].
Defined.

(** A final answer that is not valid UTF-8 does not reach the client
    verbatim: its two stray bytes come out as two U+FFFD. *)
Lemma C8_invalid_utf8_not_verbatim :
  snd (handleProcessError
         (mockDecode (inr {| ErrorLog := "nil pointer in db.go:54" |}))
         (mockPipeline (invalidAnswer, None))
         {| ReqBytes := jsonBody "nil pointer in db.go:54" |})
  = Returned {| StatusCode := 200; ContentType := "application/json";
                Body := JSONBody
                  [("status", "success");
                   ("message", "All good " +:+ UTF8.replacementChar
                                 +:+ UTF8.replacementChar)] |} /\
  ~ (exists members,
       snd (handleProcessError
              (mockDecode (inr {| ErrorLog := "nil pointer in db.go:54" |}))
              (mockPipeline (invalidAnswer, None))
              {| ReqBytes := jsonBody "nil pointer in db.go:54" |})
       = Returned {| StatusCode := 200; ContentType := "application/json";
                     Body := JSONBody members |} /\
       member "message" members = Some invalidAnswer).
Proof.
  assert (E : snd (handleProcessError
                     (mockDecode (inr {| ErrorLog := "nil pointer in db.go:54" |}))
                     (mockPipeline (invalidAnswer, None))
                     {| ReqBytes := jsonBody "nil pointer in db.go:54" |})
              = Returned {| StatusCode := 200; ContentType := "application/json";
                            Body := JSONBody
                              [("status", "success");
                               ("message", "All good " +:+ UTF8.replacementChar
                                             +:+ UTF8.replacementChar)] |})
    by (vm_compute; reflexivity).
  split; [exact E|]. rewrite E. intros (members & [= <-] & Hm).
  vm_compute in Hm. discriminate.
Qed.

Lemma C9_status_always_success_witness :
  snd (handleProcessError
         (mockDecode (inr {| ErrorLog := "nil pointer in db.go:54" |}))
         (mockPipeline ("All good", None))
         {| ReqBytes := jsonBody "nil pointer in db.go:54" |})
    = Returned {| StatusCode := 200; ContentType := "application/json";
                  Body := JSONBody [("status", "success"); ("message", "All good")] |} /\
  member "status" [("status", "success"); ("message", "All good")] = Some "success".
Proof.
  split; [reflexivity|].
  exact (proj1 (proj1 (C9_status_always_success
                  (mockDecode (inr {| ErrorLog := "nil pointer in db.go:54" |}))
                  (mockPipeline ("All good", None))
                  {| ReqBytes := jsonBody "nil pointer in db.go:54" |}
                  [EvPipelineRun "nil pointer in db.go:54" "run-idnil pointe"]
                  (jsonResponse
                     {| Status := "success"; Message := "All good";
                        IssueURL := "" |})
                  eq_refl)
                 [("status", "success"); ("message", "All good")] eq_refl)).
Defined.

Lemma C5_url_extraction_witness :
  ~ occursIn "URL: " "All good" /\
  exists resp,
    synthesize "All good" = ([], Returned resp) /\
    IssueURL resp = "" /\
    member "issue_url" (encodeAPIResponse resp) = None.
Proof.
  assert (H : ~ occursIn "URL: " "All good")
    by (apply Index_absent_iff; reflexivity).
  split; [exact H | exact (proj2 C5_url_extraction "All good" H)].
Defined.

Lemma C6_search_listing_witness :
  searchGithubIssues "acme" "app"
    (mockSearch [mkIssue ("Bug: nil pointer in db", "https://x/42");
                 mkIssue ("Crash on start", "https://x/7")])
    {[ "query" := AnyString "nil pointer" ]}
  = ([EvSearchIssues "nil pointer is:issue in:title,body repo:acme/app"],
     Returned
       ("Found 2 existing issues:" +:+ nl
          +:+ matchLine ("Bug: nil pointer in db", "https://x/42") +:+ nl
          +:+ matchLine ("Crash on start", "https://x/7"), None)).
Proof.
  apply (C6_search_listing "acme" "app" _ _ "nil pointer"
           [("Bug: nil pointer in db", "https://x/42");
            ("Crash on start", "https://x/7")]); reflexivity.
Defined.

Lemma C3_labels_passed_unfiltered_witness :
  exists req,
    fst (createGithubIssues "acme" "app" (mockCreate "https://x/42")
           (argsOf "T" "B" [AnyString "bug"; AnyFloat64 0; AnyString "typo-unlisted"]))
      = [EvCreateIssue "acme" "app" req] /\
    ReqLabels req = ["bug"; "typo-unlisted"] /\
    forall s,
      In (AnyString s) [AnyString "bug"; AnyFloat64 0; AnyString "typo-unlisted"] ->
      In s (ReqLabels req).
Proof.
  exact (C3_labels_passed_unfiltered "acme" "app" (mockCreate "https://x/42")
           (argsOf "T" "B" [AnyString "bug"; AnyFloat64 0; AnyString "typo-unlisted"])
           "T" "B" [AnyString "bug"; AnyFloat64 0; AnyString "typo-unlisted"]
           eq_refl eq_refl eq_refl).
Defined.

Lemma C4_missing_argument_rejected_witness :
  exists name,
    (name = "title" \/ name = "body") /\
    createGithubIssues "acme" "app" (mockCreate "https://x/42")
      {[ "body" := AnyString "B" ]}
    = ([], Returned ("", Some ("missing or invalid '" +:+ name
                                 +:+ "' argument for create_github_issue"))).
Proof.
  apply C4_missing_argument_rejected. left. reflexivity.
Defined.

Lemma C10_labels_optional_witness :
  exists labels,
    fst (createGithubIssues "acme" "app" (mockCreate "https://x/42")
           (<[ "body" := AnyString "B" ]> {[ "title" := AnyString "T" ]}))
      = [EvCreateIssue "acme" "app"
           {| ReqTitle := "T"; ReqBody := "B"; ReqLabels := labels |}] /\
    labels = [].
Proof.
  set (args := <[ "body" := AnyString "B" ]> {[ "title" := AnyString "T" ]}
        : gmap string any).
  assert (Ht : args !! "title" = Some (AnyString "T")) by (vm_compute; reflexivity).
  assert (Hb : args !! "body" = Some (AnyString "B")) by (vm_compute; reflexivity).
  destruct (C10_labels_optional "acme" "app" (mockCreate "https://x/42")
              args "T" "B" Ht Hb) as (labels & Hcall & Hnone & _).
  exists labels. split; [exact Hcall | apply Hnone; vm_compute; reflexivity].
Defined.

(** The label example of the specification: the unlisted label reaches the
    tracker, so the labels of the call are not drawn from the enumerated
    set. *)
Lemma C3_unlisted_label_reaches_tracker :
  fst (createGithubIssues "acme" "app" (mockCreate "https://x/42")
         (argsOf "T" "B" [AnyString "bug"; AnyString "typo-unlisted"]))
    = [EvCreateIssue "acme" "app"
         {| ReqTitle := "T"; ReqBody := "B";
            ReqLabels := ["bug"; "typo-unlisted"] |}] /\
  ~ (forall req,
       In (EvCreateIssue "acme" "app" req)
          (fst (createGithubIssues "acme" "app" (mockCreate "https://x/42")
                  (argsOf "T" "B" [AnyString "bug"; AnyString "typo-unlisted"]))) ->
       forall s, In s (ReqLabels req) -> In s labelEnum).
Proof.
  assert (E : fst (createGithubIssues "acme" "app" (mockCreate "https://x/42")
                     (argsOf "T" "B" [AnyString "bug"; AnyString "typo-unlisted"]))
              = [EvCreateIssue "acme" "app"
                   {| ReqTitle := "T"; ReqBody := "B";
                      ReqLabels := ["bug"; "typo-unlisted"] |}])
    by (vm_compute; reflexivity).
  split; [exact E|]. rewrite E. intros H.
  specialize (H _ (or_introl eq_refl) "typo-unlisted" (or_intror (or_introl eq_refl))).
  unfold labelEnum in H. simpl in H.
  destruct H as [H|[H|[H|[]]]]; discriminate.
Qed.

(** An empty title is a string: the tracker is called and the executor
    reports success, not an argument error. *)
Lemma C4_empty_title_reaches_tracker :
  createGithubIssues "acme" "app" (mockCreate "https://x/42") (argsOf "" "B" [])
    = ([EvCreateIssue "acme" "app"
          {| ReqTitle := ""; ReqBody := "B"; ReqLabels := [] |}],
       Returned (createdAnswer "" "https://x/42", None)) /\
  ~ (fst (createGithubIssues "acme" "app" (mockCreate "https://x/42")
            (argsOf "" "B" [])) = [] /\
     exists text err,
       snd (createGithubIssues "acme" "app" (mockCreate "https://x/42")
              (argsOf "" "B" [])) = Returned (text, Some err)).
Proof.
  assert (E : createGithubIssues "acme" "app" (mockCreate "https://x/42")
                (argsOf "" "B" [])
              = ([EvCreateIssue "acme" "app"
                    {| ReqTitle := ""; ReqBody := "B"; ReqLabels := [] |}],
                 Returned (createdAnswer "" "https://x/42", None)))
    by (vm_compute; reflexivity).
  split; [exact E|]. rewrite E. intros [H _]. discriminate.
Qed.

(** ** Further properties of the request handler *)

Lemma sliceTo_long s :
  (10 <= Strings.len s)%Z ->
  Strings.sliceTo s 10 = Some (String.substring 0 10 s).
Proof.
  intros H. unfold Strings.sliceTo, Strings.slice.
  replace (10 <=? Strings.len s)%Z with true by (symmetry; apply Z.leb_le; lia).
  reflexivity.
Qed.

Lemma long_log_nonempty s : (10 <= Strings.len s)%Z -> s <> "".
Proof. intros H ->. vm_compute in H. now apply H. Qed.

Lemma handleProcessError_long jsonDecode pipeline r req :
  jsonDecode (ReqBytes r) = inr req ->
  (10 <= Strings.len (ErrorLog req))%Z ->
  exists resp,
    handleProcessError jsonDecode pipeline r =
      (EvPipelineRun (ErrorLog req) (runIDOf (ErrorLog req))
         :: fst (pipeline (ErrorLog req) (runIDOf (ErrorLog req))),
       Returned resp) /\
    (StatusCode resp = 200 \/ StatusCode resp = 500).
Proof.
  intros H L. pose proof (long_log_nonempty _ L) as E.
  pose proof (sliceTo_long _ L) as S. unfold runIDOf.
  destruct (pipeline (ErrorLog req) ("run-id" +:+ String.substring 0 10 (ErrorLog req)))
    as [calls [out [e|]]] eqn:P; simpl.
  - rewrite (handleProcessError_failed _ _ _ _ _ _ _ _ H E S P).
    eexists. split; [reflexivity | now right].
  - destruct (handleProcessError_done _ _ _ _ _ _ _ H E S P) as (u & -> & _).
    eexists. split; [reflexivity | now left].
Qed.

(** X1: an error log of ten bytes or more is always answered: the handler
    runs the pipeline once, on the whole log and under the run identifier
    made of ["run-id"] and the log's first ten bytes, and then writes a
    200 or a 500; it never panics. *)
Theorem handleProcessError_long_log_answered jsonDecode pipeline r req :
  jsonDecode (ReqBytes r) = inr req ->
  (10 <= Strings.len (ErrorLog req))%Z ->
  exists resp,
    handleProcessError jsonDecode pipeline r =
      (EvPipelineRun (ErrorLog req) (runIDOf (ErrorLog req))
         :: fst (pipeline (ErrorLog req) (runIDOf (ErrorLog req))),
       Returned resp) /\
    (StatusCode resp = 200 \/ StatusCode resp = 500).
Proof. apply handleProcessError_long. Qed.

(** X2: when the pipeline reports an error the handler answers 500 with
    the plain text ["Agent failed to process error: <error>"], whatever
    final output came with the error. *)
Theorem handleProcessError_pipeline_error jsonDecode pipeline r req out e :
  jsonDecode (ReqBytes r) = inr req ->
  (10 <= Strings.len (ErrorLog req))%Z ->
  snd (pipeline (ErrorLog req) (runIDOf (ErrorLog req))) = (out, Some e) ->
  snd (handleProcessError jsonDecode pipeline r) =
    Returned {| StatusCode := 500;
                ContentType := "text/plain; charset=utf-8";
                Body := TextBody ("Agent failed to process error: " +:+ e +:+ nl) |}.
Proof.
  intros H L P. pose proof (long_log_nonempty _ L) as E.
  pose proof (sliceTo_long _ L) as S. unfold runIDOf in P.
  destruct (pipeline (ErrorLog req) ("run-id" +:+ String.substring 0 10 (ErrorLog req)))
    as [calls ans] eqn:Q. simpl in P. subst ans.
  rewrite (handleProcessError_failed _ _ _ _ _ _ _ _ H E S Q). reflexivity.
Qed.

(** X3: whatever the request, the handler makes no call of its own to the
    issue tracker and enters the pipeline at most once: its calls are
    either none, or one pipeline run followed by the calls of that run. *)
Theorem handleProcessError_calls jsonDecode pipeline r :
  fst (handleProcessError jsonDecode pipeline r) = [] \/
  exists req,
    jsonDecode (ReqBytes r) = inr req /\
    fst (handleProcessError jsonDecode pipeline r) =
      EvPipelineRun (ErrorLog req) (runIDOf (ErrorLog req))
        :: fst (pipeline (ErrorLog req) (runIDOf (ErrorLog req))).
Proof.
  destruct (jsonDecode (ReqBytes r)) as [err|req] eqn:H.
  { left. now rewrite (handleProcessError_malformed _ _ _ _ H). }
  destruct (String.eqb_spec (ErrorLog req) "") as [E|E].
  { left. now rewrite (handleProcessError_empty _ _ _ _ H E). }
  destruct (Z_lt_le_dec (Strings.len (ErrorLog req)) 10) as [L|L].
  { left. rewrite (handleProcessError_short _ _ _ _ H E); [reflexivity|].
    now apply sliceTo_short. }
  right. exists req. split; [reflexivity|].
  destruct (handleProcessError_long jsonDecode pipeline r req H L)
    as (resp & -> & _). reflexivity.
Qed.

(** ** Further facts about strings *)

Lemma append_String x (a b : string) : String x a +:+ b = String x (a +:+ b).
Proof. reflexivity. Qed.

Lemma append_nil_l (a : string) : "" +:+ a = a.
Proof. reflexivity. Qed.

Lemma append_assoc (a b c : string) : (a +:+ b) +:+ c = a +:+ (b +:+ c).
Proof.
  induction a as [|x a IH]; [reflexivity|].
  rewrite !append_String. f_equal. exact IH.
Qed.

Lemma append_nil_r (a : string) : a +:+ "" = a.
Proof.
  induction a as [|x a IH]; [reflexivity|].
  rewrite append_String. f_equal. exact IH.
Qed.

Lemma len_app a b : Strings.len (a +:+ b) = (Strings.len a + Strings.len b)%Z.
Proof.
  induction a as [|x a IH].
  - rewrite append_nil_l. change (Strings.len "") with 0%Z. lia.
  - rewrite append_String, !len_String, IH. lia.
Qed.

Lemma rev_append a b : Strings.rev (a +:+ b) = Strings.rev b +:+ Strings.rev a.
Proof.
  induction a as [|x a IH].
  - rewrite append_nil_l. simpl. now rewrite append_nil_r.
  - rewrite append_String. simpl. now rewrite IH, append_assoc.
Qed.

Lemma rev_involutive a : Strings.rev (Strings.rev a) = a.
Proof.
  induction a as [|x a IH]; simpl; [reflexivity|].
  now rewrite rev_append, IH.
Qed.

Lemma occursIn_refl s : occursIn s s.
Proof. exists "", "". now rewrite append_nil_l, append_nil_r. Qed.

Lemma occursIn_trans a b c : occursIn a b -> occursIn b c -> occursIn a c.
Proof.
  intros (p & q & ->) (p' & q' & ->).
  exists (p' +:+ p), (q +:+ q'). now rewrite !append_assoc.
Qed.

Lemma trimLeft_eq runes s :
  Strings.trimLeft runes s =
  match Strings.spacePrefix runes s, s with
  | 1%nat, String _ s1 => Strings.trimLeft runes s1
  | 2%nat, String _ (String _ s2) => Strings.trimLeft runes s2
  | 3%nat, String _ (String _ (String _ s3)) => Strings.trimLeft runes s3
  | _, _ => s
  end.
Proof. destruct s; reflexivity. Qed.

(** Trimming on the left keeps a suffix of the string. *)
Lemma trimLeft_suffix runes n :
  forall s, (String.length s <= n)%nat ->
  exists p, s = p +:+ Strings.trimLeft runes s.
Proof.
  induction n as [|n IH]; intros s Hn; rewrite trimLeft_eq.
  - destruct s; [|simpl in Hn; lia].
    destruct (Strings.spacePrefix runes "") as [|[|[|[|k]]]]; now exists "".
  - destruct (Strings.spacePrefix runes s) as [|[|[|[|k]]]];
      try (now exists "").
    + destruct s as [|c s1]; [now exists ""|].
      destruct (IH s1) as [p Hp]; [simpl in Hn; lia|].
      exists (String c p). rewrite append_String. now rewrite <- Hp.
    + destruct s as [|c [|c2 s2]]; try (now exists "").
      destruct (IH s2) as [p Hp]; [simpl in Hn; lia|].
      exists (String c (String c2 p)). rewrite !append_String. now rewrite <- Hp.
    + destruct s as [|c [|c2 [|c3 s3]]]; try (now exists "").
      destruct (IH s3) as [p Hp]; [simpl in Hn; lia|].
      exists (String c (String c2 (String c3 p))). rewrite !append_String.
      now rewrite <- Hp.
Qed.

(** [TrimSpace] returns a piece of its argument. *)
Lemma TrimSpace_occursIn s : occursIn (Strings.TrimSpace s) s.
Proof.
  unfold Strings.TrimSpace. cbv zeta.
  destruct (trimLeft_suffix Strings.spaceRunes _ s (le_n _)) as [p Hp].
  set (s1 := Strings.trimLeft Strings.spaceRunes s) in *.
  destruct (trimLeft_suffix (List.map Strings.rev Strings.spaceRunes) _
              (Strings.rev s1) (le_n _)) as [q Hq].
  set (t := Strings.trimLeft (List.map Strings.rev Strings.spaceRunes)
              (Strings.rev s1)) in *.
  exists p, (Strings.rev q).
  rewrite <- rev_append, <- Hq, rev_involutive. exact Hp.
Qed.

Lemma noByteIn_app chars a b :
  noByteIn chars (a +:+ b) = (noByteIn chars a && noByteIn chars b)%bool.
Proof.
  induction a as [|x a IH]; [reflexivity|].
  rewrite append_String. simpl. rewrite IH. now rewrite andb_assoc.
Qed.

Lemma noByteIn_occursIn chars a b :
  occursIn a b -> noByteIn chars b = true -> noByteIn chars a = true.
Proof.
  intros (p & q & ->). rewrite !noByteIn_app, !andb_true_iff. tauto.
Qed.

Lemma indexAnyFrom_none chars s i :
  (0 <= i)%Z ->
  Strings.indexAnyFrom i s chars = (-1)%Z <-> noByteIn chars s = true.
Proof.
  revert i. induction s as [|c s IH]; intros i Hi; simpl; [tauto|].
  destruct (Strings.containsByte chars c); simpl.
  - split; [lia | discriminate].
  - apply IH. lia.
Qed.

(** The bytes before the place [IndexAny] reports are outside [chars]. *)
Lemma indexAnyFrom_prefix_clean chars s i :
  Strings.indexAnyFrom i s chars <> (-1)%Z ->
  noByteIn chars
    (String.substring 0 (Z.to_nat (Strings.indexAnyFrom i s chars - i)) s) = true.
Proof.
  revert i. induction s as [|c s IH]; intros i; simpl; [congruence|].
  destruct (Strings.containsByte chars c) eqn:E.
  - intros _. now rewrite Z.sub_diag.
  - intros H. specialize (IH (i + 1)%Z H).
    destruct (indexAnyFrom_bounds chars s (i + 1)) as [F|F]; [contradiction|].
    replace (Z.to_nat (Strings.indexAnyFrom (i + 1) s chars - i))
      with (S (Z.to_nat (Strings.indexAnyFrom (i + 1) s chars - (i + 1))))
      by lia.
    simpl. now rewrite E, IH.
Qed.

Lemma substring_nil n m : String.substring n m "" = "".
Proof. destruct n, m; reflexivity. Qed.

Lemma substring_prefix s :
  forall n m k, (k <= m)%nat ->
  String.substring 0 k (String.substring n m s) = String.substring n k s.
Proof.
  induction s as [|c s IH]; intros n m k H.
  - now rewrite !substring_nil.
  - destruct n as [|n]; [|simpl; now apply IH].
    destruct m as [|m]; [assert (k = 0%nat) by lia; now subst|].
    destruct k as [|k]; [reflexivity|].
    simpl. f_equal. apply IH. lia.
Qed.

Lemma substring_piece s :
  forall n m, exists p q,
    s = p +:+ String.substring n m s +:+ q /\ (n = 0%nat -> p = "").
Proof.
  induction s as [|c s IH]; intros n m.
  - exists "", "". now rewrite substring_nil.
  - destruct n as [|n].
    + destruct m as [|m]; [now exists "", (String c s)|].
      destruct (IH 0%nat m) as (p & q & Hs & Hp). rewrite (Hp eq_refl) in Hs.
      exists "", q. split; [|reflexivity]. simpl. rewrite append_nil_l in *.
      rewrite append_String. now f_equal.
    + destruct (IH n m) as (p & q & Hs & _).
      exists (String c p), q. split; [|discriminate].
      simpl. rewrite append_String. now f_equal.
Qed.

Lemma substring_occursIn s n m : occursIn (String.substring n m s) s.
Proof. destruct (substring_piece s n m) as (p & q & H & _). now exists p, q. Qed.

Lemma slice_Some s lo hi u :
  Strings.slice s lo hi = Some u ->
  u = String.substring (Z.to_nat lo) (Z.to_nat (hi - lo)) s /\
  (0 <= lo <= hi)%Z /\ (hi <= Strings.len s)%Z.
Proof.
  unfold Strings.slice.
  destruct (Z.leb_spec 0 lo), (Z.leb_spec lo hi), (Z.leb_spec hi (Strings.len s));
    simpl; try discriminate.
  intros [= <-]. repeat split; lia.
Qed.

(** What the URL scan stores is cut out of the final output and holds
    neither a space nor a newline. *)
Lemma parseIssueURL_url finalOutput resp :
  exists u,
    parseIssueURL finalOutput resp = ([], Returned (setIssueURL resp u)) /\
    (u = IssueURL resp \/
     (occursIn u finalOutput /\ noByteIn (" " +:+ nl) u = true)).
Proof.
  unfold parseIssueURL.
  destruct (Z.eqb_spec (Strings.Index finalOutput "URL: ") (-1)) as [E|E]; simpl.
  - exists (IssueURL resp). split; [now destruct resp | now left].
  - destruct (indexFrom_bounds "URL: " finalOutput 0) as [H|[H1 H2]];
      [contradiction|].
    fold (Strings.Index finalOutput "URL: ") in H1, H2.
    change (Strings.len "URL: ") with 5%Z in H2.
    set (idx := Strings.Index finalOutput "URL: ") in *.
    destruct (slice_in_bounds finalOutput (idx + 5) (Strings.len finalOutput))
      as (rest & Hrest & Hlen); [lia|lia|].
    unfold Strings.sliceFrom. rewrite Hrest. eff.
    destruct (slice_Some _ _ _ _ Hrest) as (Er & _).
    assert (Or : occursIn rest finalOutput)
      by (rewrite Er; apply substring_occursIn).
    destruct (Z.eqb_spec (Strings.IndexAny rest (" " +:+ nl)) (-1)) as [F|F];
      simpl.
    + eexists. split; [reflexivity|]. right.
      assert (C : noByteIn (" " +:+ nl) rest = true)
        by (apply (indexAnyFrom_none _ _ 0); [lia | exact F]).
      split.
      * exact (occursIn_trans _ _ _ (TrimSpace_occursIn rest) Or).
      * exact (noByteIn_occursIn _ _ _ (TrimSpace_occursIn rest) C).
    + destruct (indexAnyFrom_bounds (" " +:+ nl) rest 0) as [G|G];
        [contradiction|].
      fold (Strings.IndexAny rest (" " +:+ nl)) in G.
      set (e := Strings.IndexAny rest (" " +:+ nl)) in *.
      destruct (slice_in_bounds finalOutput (idx + 5) (idx + 5 + e))
        as (u & Hu & _); [lia|lia|].
      rewrite Hu. eff. eexists. split; [reflexivity|]. right.
      destruct (slice_Some _ _ _ _ Hu) as (Eu & _).
      assert (Eu' : u = String.substring 0 (Z.to_nat e) rest).
      { rewrite Eu, Er, substring_prefix by lia. f_equal. lia. }
      assert (C : noByteIn (" " +:+ nl) u = true).
      { rewrite Eu'. pose proof (indexAnyFrom_prefix_clean (" " +:+ nl) rest 0 F) as P.
        fold (Strings.IndexAny rest (" " +:+ nl)) in P. fold e in P.
        now rewrite Z.sub_0_r in P. }
      assert (Ou : occursIn u finalOutput)
        by (rewrite Eu; apply substring_occursIn).
      split.
      * exact (occursIn_trans _ _ _ (TrimSpace_occursIn u) Ou).
      * exact (noByteIn_occursIn _ _ _ (TrimSpace_occursIn u) C).
Qed.

(** ** Further properties of the response synthesizer *)

Lemma Contains_occursIn s sub :
  Strings.Contains s sub = true -> occursIn sub s.
Proof.
  unfold Strings.Contains. intros H. apply Z.leb_le in H.
  apply (indexFrom_found sub s 0). fold (Strings.Index s sub). lia.
Qed.

(** X4: a URL is reported only for an answer that contains one of the two
    markers and the text ["URL: "]; any other answer leaves [IssueURL]
    empty. *)
Theorem synthesize_url_needs_marker finalOutput :
  exists resp,
    synthesize finalOutput = ([], Returned resp) /\
    (IssueURL resp <> "" ->
     (occursIn "GitHub issue created successfully!" finalOutput \/
      occursIn "Found existing issues:" finalOutput) /\
     occursIn "URL: " finalOutput).
Proof.
  unfold synthesize.
  set (resp := {| Status := "success"; Message := finalOutput; IssueURL := "" |}).
  assert (P : forall u,
             (Strings.Index finalOutput "URL: " = (-1)%Z -> u = IssueURL resp) ->
             IssueURL (setIssueURL resp u) <> "" -> occursIn "URL: " finalOutput).
  { intros u Hu Hne. simpl in Hne.
    destruct (Z.eq_dec (Strings.Index finalOutput "URL: ") (-1)) as [E|E].
    - now rewrite (Hu E) in Hne.
    - exact (indexFrom_found _ _ _ E). }
  destruct (Strings.Contains finalOutput "GitHub issue created successfully!") eqn:M1.
  { destruct (parseIssueURL_returns finalOutput resp) as (u & -> & Hu).
    eexists. split; [reflexivity|]. intros Hne. split.
    - left. now apply Contains_occursIn.
    - exact (P u Hu Hne). }
  destruct (Strings.Contains finalOutput "Found existing issues:") eqn:M2.
  { destruct (parseIssueURL_returns finalOutput resp) as (u & -> & Hu).
    eexists. split; [reflexivity|]. intros Hne. split.
    - right. now apply Contains_occursIn.
    - exact (P u Hu Hne). }
  exists resp. split; [reflexivity|]. intros Hne. now contradiction Hne.
Qed.

(** X5: whatever the answer, the URL the synthesizer reports is a piece of
    that answer and contains neither a space nor a newline. *)
Theorem synthesize_url_clean finalOutput :
  exists resp,
    synthesize finalOutput = ([], Returned resp) /\
    occursIn (IssueURL resp) finalOutput /\
    Strings.IndexAny (IssueURL resp) (" " +:+ nl) = (-1)%Z.
Proof.
  unfold synthesize.
  set (resp := {| Status := "success"; Message := finalOutput; IssueURL := "" |}).
  assert (P : exists r,
             parseIssueURL finalOutput resp = ([], Returned r) /\
             occursIn (IssueURL r) finalOutput /\
             Strings.IndexAny (IssueURL r) (" " +:+ nl) = (-1)%Z).
  { destruct (parseIssueURL_url finalOutput resp) as (u & -> & [->|[O C]]).
    - eexists. split; [reflexivity|]. split; [now exists "", finalOutput | reflexivity].
    - eexists. split; [reflexivity|]. split; [exact O|].
      apply (indexAnyFrom_none _ _ 0); [lia | exact C]. }
  destruct (Strings.Contains finalOutput "GitHub issue created successfully!");
    [exact P|].
  destruct (Strings.Contains finalOutput "Found existing issues:"); [exact P|].
  exists resp. split; [reflexivity|].
  split; [now exists "", finalOutput | reflexivity].
Qed.

Lemma HasPrefix_through d t r sub :
  Strings.containsByte sub d = false ->
  Strings.HasPrefix (t +:+ String d r) sub = true ->
  Strings.HasPrefix t sub = true.
Proof.
  revert t. induction sub as [|a sub IH]; intros t Hd H.
  - now destruct t.
  - simpl in Hd. apply orb_false_elim in Hd as [Hda Hd].
    destruct t as [|c t].
    + rewrite append_nil_l in H. simpl in H.
      apply andb_prop in H as [H _]. congruence.
    + rewrite append_String in H. simpl in *.
      apply andb_prop in H as [Hc H]. rewrite Hc. simpl. now apply IH.
Qed.

(** A text in which [sub] does not occur, closed by a byte that is not in
    [sub], is skipped by the search for [sub]. *)
Lemma indexFrom_skip d r sub t :
  forall i,
    ~ occursIn sub t -> Strings.containsByte sub d = false ->
    Strings.indexFrom i (t +:+ String d r) sub =
    Strings.indexFrom (i + Strings.len t) (String d r) sub.
Proof.
  induction t as [|c t IH]; intros i Hn Hd.
  - rewrite append_nil_l. change (Strings.len "") with 0%Z. now rewrite Z.add_0_r.
  - rewrite append_String, indexFrom_String.
    destruct (Strings.HasPrefix (String c (t +:+ String d r)) sub) eqn:E.
    + exfalso. apply Hn. rewrite <- append_String in E.
      apply (HasPrefix_through _ _ _ _ Hd) in E.
      apply HasPrefix_app in E as [q Hq]. exists "", q. now rewrite append_nil_l.
    + rewrite IH; [|intros (p & q & ->); apply Hn; now exists (String c p), q|exact Hd].
      rewrite len_String. f_equal. lia.
Qed.

Lemma substring_app_r a b :
  String.substring (String.length a) (String.length b) (a +:+ b) = b.
Proof.
  induction a as [|x a IH].
  - rewrite append_nil_l. simpl. induction b as [|y b IHb]; [reflexivity|].
    simpl. now rewrite IHb.
  - rewrite append_String. simpl. exact IH.
Qed.

Lemma sliceFrom_app a b :
  Strings.sliceFrom (a +:+ b) (Strings.len a) = Some b.
Proof.
  unfold Strings.sliceFrom, Strings.slice. rewrite len_app.
  pose proof (len_nonneg a). pose proof (len_nonneg b).
  replace (0 <=? Strings.len a)%Z with true by (symmetry; apply Z.leb_le; lia).
  replace (Strings.len a <=? Strings.len a + Strings.len b)%Z with true
    by (symmetry; apply Z.leb_le; lia).
  rewrite Z.leb_refl. simpl. f_equal.
  replace (Z.to_nat (Strings.len a)) with (String.length a)
    by (unfold Strings.len; lia).
  replace (Z.to_nat (Strings.len a + Strings.len b - Strings.len a))
    with (String.length b) by (unfold Strings.len; lia).
  apply substring_app_r.
Qed.

Lemma HasPrefix_nil s : Strings.HasPrefix s "" = true.
Proof. now destruct s. Qed.

Lemma createdAnswer_marker title url :
  Strings.Contains (createdAnswer title url) "GitHub issue created successfully!"
  = true.
Proof.
  unfold createdAnswer, dq, Strings.Contains, Strings.Index.
  repeat rewrite ?append_String, ?append_nil_l.
  reflexivity.
Qed.

Lemma createdAnswer_index title url :
  ~ occursIn "URL: " title ->
  Strings.Index (createdAnswer title url) "URL: " = (46 + Strings.len title)%Z.
Proof.
  intros H. unfold createdAnswer, dq, Strings.Index.
  repeat rewrite ?append_String, ?append_nil_l.
  repeat (rewrite indexFrom_String; simpl Strings.HasPrefix; cbv iota).
  rewrite (indexFrom_skip DQ _ "URL: " title _ H eq_refl).
  repeat (rewrite indexFrom_String; simpl Strings.HasPrefix; cbv iota).
  rewrite HasPrefix_nil. lia.
Qed.

Lemma createdAnswer_tail title url :
  Strings.sliceFrom (createdAnswer title url) (51 + Strings.len title) = Some url.
Proof.
  set (head := "GitHub issue created successfully! Title: " +:+ dq +:+ title
                 +:+ dq +:+ ", URL: ").
  assert (E : createdAnswer title url = head +:+ url).
  { unfold createdAnswer, head. now rewrite !append_assoc. }
  assert (L : Strings.len head = (51 + Strings.len title)%Z).
  { unfold head. rewrite !len_app.
    change (Strings.len "GitHub issue created successfully! Title: ") with 42%Z.
    change (Strings.len dq) with 1%Z.
    change (Strings.len ", URL: ") with 7%Z. lia. }
  rewrite E, <- L. apply sliceFrom_app.
Qed.

(** The text the create executor returns for a new issue gives the
    issue's URL back. *)
Lemma synthesize_created_answer title url :
  ~ occursIn "URL: " title ->
  Strings.IndexAny url (" " +:+ nl) = (-1)%Z ->
  Strings.TrimSpace url = url ->
  synthesize (createdAnswer title url) =
    ([], Returned {| Status := "success";
                     Message := createdAnswer title url;
                     IssueURL := url |}).
Proof.
  intros Ht Hu Hs. unfold synthesize.
  rewrite createdAnswer_marker. unfold parseIssueURL. cbv zeta.
  rewrite (createdAnswer_index _ _ Ht).
  pose proof (len_nonneg title) as L.
  destruct (Z.eqb_spec (46 + Strings.len title) (-1)) as [E|_]; [lia|].
  replace (46 + Strings.len title + 5)%Z with (51 + Strings.len title)%Z by lia.
  simpl negb. cbv iota.
  rewrite createdAnswer_tail. eff. rewrite Hu. simpl. now rewrite Hs.
Qed.

(** X6: the answer of a successful create call round-trips through the
    synthesizer.  Whenever the create executor returns without error, it
    made one create call, the tracker answered it with a title [t] and a
    URL [u], and (for [t] free of ["URL: "] and [u] free of space and
    newline and unchanged by trimming) the synthesizer, given the
    executor's text, reports [u]. *)
Theorem created_issue_url_round_trip owner repo create args text :
  snd (createGithubIssues owner repo create args) = Returned (text, None) ->
  exists req t u,
    fst (createGithubIssues owner repo create args) = [EvCreateIssue owner repo req] /\
    create owner repo req = inr {| Title := Some t; HTMLURL := Some u |} /\
    (~ occursIn "URL: " t ->
     Strings.IndexAny u (" " +:+ nl) = (-1)%Z ->
     Strings.TrimSpace u = u ->
     synthesize text =
       ([], Returned {| Status := "success"; Message := text; IssueURL := u |})).
Proof.
  intros H.
  destruct (args !! "title") as [[| | |title| |]|] eqn:Ht;
    try (unfold createGithubIssues in H; rewrite Ht in H; discriminate).
  destruct (args !! "body") as [[| | |body| |]|] eqn:Hb;
    try (unfold createGithubIssues in H; rewrite Ht, Hb in H; discriminate).
  rewrite (createGithubIssues_valid _ _ _ _ _ _ Ht Hb) in *.
  cbv zeta in *. simpl fst. simpl snd in H.
  match goal with
  | |- context [EvCreateIssue owner repo ?r] => set (req := r) in *
  end.
  destruct (create owner repo req) as [err|[[t|] [u|]]] eqn:C;
    simpl in H; try discriminate.
  injection H as <-. exists req, t, u.
  split; [reflexivity|]. split; [exact C|].
  apply synthesize_created_answer.
Qed.

Lemma created_issue_url_round_trip_witness :
  exists req t u,
    fst (createGithubIssues "acme" "app" (mockCreate "https://x/42")
           (argsOf "Bug: nil pointer in db" "trace" [AnyString "bug"]))
      = [EvCreateIssue "acme" "app" req] /\
    mockCreate "https://x/42" "acme" "app" req
      = inr {| Title := Some t; HTMLURL := Some u |} /\
    synthesize (createdAnswer "Bug: nil pointer in db" "https://x/42") =
      ([], Returned {| Status := "success";
                       Message := createdAnswer "Bug: nil pointer in db" "https://x/42";
                       IssueURL := u |}).
Proof.
  assert (H : snd (createGithubIssues "acme" "app" (mockCreate "https://x/42")
                     (argsOf "Bug: nil pointer in db" "trace" [AnyString "bug"]))
              = Returned (createdAnswer "Bug: nil pointer in db" "https://x/42", None))
    by (vm_compute; reflexivity).
  destruct (created_issue_url_round_trip _ _ _ _ _ H) as (req & t & u & Hc & Ha & Hs).
  exists req, t, u. split; [exact Hc|]. split; [exact Ha|].
  assert (E : fst (createGithubIssues "acme" "app" (mockCreate "https://x/42")
                     (argsOf "Bug: nil pointer in db" "trace" [AnyString "bug"]))
              = [EvCreateIssue "acme" "app"
                   {| ReqTitle := "Bug: nil pointer in db"; ReqBody := "trace";
                      ReqLabels := ["bug"] |}])
    by (vm_compute; reflexivity).
  rewrite E in Hc. injection Hc as <-. simpl in Ha. injection Ha as <- <-.
  apply Hs; [apply Index_absent_iff; reflexivity | reflexivity | reflexivity].
Defined.

(** ** Further properties of the tool executors *)

Lemma formatIssues_calls issues :
  forall results, fst (formatIssues issues results) = [].
Proof.
  induction issues as [|[[t|] [u|]] issues IH]; intros results;
    simpl; eff; try reflexivity.
  specialize (IH (results ++ ["- Title: " +:+ dq +:+ t +:+ dq +:+ ", URL: " +:+ u])%list).
  destruct (formatIssues issues _) as [tr o]. simpl in IH. now subst.
Qed.

Lemma formatIssues_outcome issues :
  forall results,
    if forallb issueComplete issues
    then exists lines, snd (formatIssues issues results) = Returned lines
    else snd (formatIssues issues results) = Panicked NilPointerDereference.
Proof.
  induction issues as [|[[t|] [u|]] issues IH]; intros results;
    simpl; eff; try reflexivity; [eexists; reflexivity|].
  unfold issueComplete at 1. simpl.
  specialize (IH (results ++ ["- Title: " +:+ dq +:+ t +:+ dq +:+ ", URL: " +:+ u])%list).
  destruct (formatIssues issues _) as [tr o]. simpl in *. exact IH.
Qed.

(** The search executor, once its query is a string: one call, and an
    outcome decided by the tracker's answer. *)
Lemma searchGithubIssues_valid owner repo search args query :
  args !! "query" = Some (AnyString query) ->
  fst (searchGithubIssues owner repo search args)
    = [EvSearchIssues (scopedQuery owner repo query)] /\
  match search (scopedQuery owner repo query) with
  | inl err =>
      snd (searchGithubIssues owner repo search args)
        = Returned ("Error searching GitHub issues: " +:+ err, Some err)
  | inr issues =>
      if forallb issueComplete issues
      then exists text,
             snd (searchGithubIssues owner repo search args) = Returned (text, None)
      else snd (searchGithubIssues owner repo search args)
             = Panicked NilPointerDereference
  end.
Proof.
  intros Hq. unfold searchGithubIssues, scopedQuery. rewrite Hq. eff.
  destruct (search _) as [err|issues]; [split; reflexivity|].
  destruct (Z.eqb_spec (Z.of_nat (length issues)) 0) as [E|E].
  { destruct issues; [|simpl in E; lia]. split; [reflexivity|].
    simpl. eexists. reflexivity. }
  pose proof (formatIssues_calls issues []) as Hc.
  pose proof (formatIssues_outcome issues []) as Ho.
  destruct (formatIssues issues []) as [tr o]. simpl in Hc. subst tr.
  destruct (forallb issueComplete issues).
  - destruct Ho as [lines Hl]. simpl in Hl. subst o. eff.
    split; [reflexivity | eexists; reflexivity].
  - simpl in Ho. subst o. split; reflexivity.
Qed.

(** X7: the search executor is read-only and scoped: every call it makes
    is a search, for the engine's query followed by
    [" is:issue in:title,body repo:<owner>/<repo>"], and it makes at most
    one. *)
Theorem searchGithubIssues_calls owner repo search args :
  fst (searchGithubIssues owner repo search args) = [] \/
  exists query,
    args !! "query" = Some (AnyString query) /\
    fst (searchGithubIssues owner repo search args) =
      [EvSearchIssues
         (query +:+ " is:issue in:title,body repo:" +:+ owner +:+ "/" +:+ repo)].
Proof.
  destruct (args !! "query") as [[| | |query| |]|] eqn:Hq;
    try (left; unfold searchGithubIssues; now rewrite Hq).
  right. exists query. split; [reflexivity|].
  exact (proj1 (searchGithubIssues_valid owner repo search args query Hq)).
Qed.

(** X8: the search executor returns an error in exactly two cases: the
    [query] argument is absent or not a string (empty text, no call made),
    or the tracker's search failed (its error, with the text
    ["Error searching GitHub issues: <error>"]). *)
Theorem searchGithubIssues_error_iff owner repo search args text err :
  snd (searchGithubIssues owner repo search args) = Returned (text, Some err) <->
  (isString (args !! "query") = false /\ text = "" /\
   err = "missing or invalid 'query' argument for search_github_issues") \/
  (exists query,
     args !! "query" = Some (AnyString query) /\
     search (scopedQuery owner repo query) = inl err /\
     text = "Error searching GitHub issues: " +:+ err).
Proof.
  destruct (args !! "query") as [[| | |query| |]|] eqn:Hq;
    try (unfold searchGithubIssues; rewrite Hq; simpl; split;
         [intros [= <- <-]; left; auto
         |intros [(_ & -> & ->)|(q & [=] & _)]; reflexivity]).
  destruct (searchGithubIssues_valid owner repo search args query Hq) as [_ H].
  split.
  - intros R. right. exists query. split; [reflexivity|].
    destruct (search (scopedQuery owner repo query)) as [e|issues].
    + rewrite H in R. injection R as <- <-. auto.
    + destruct (forallb issueComplete issues).
      * destruct H as [t Ht]. rewrite Ht in R. discriminate.
      * rewrite H in R. discriminate.
  - intros [(F & _)|(q & [= <-] & S & ->)]; [discriminate|].
    now rewrite S in H.
Qed.

(** X9: once the tracker's search has answered, the search executor panics
    on a nil pointer exactly when one of the issues found lacks its title
    or its URL. *)
Theorem searchGithubIssues_panic_iff owner repo search args query issues :
  args !! "query" = Some (AnyString query) ->
  search (scopedQuery owner repo query) = inr issues ->
  snd (searchGithubIssues owner repo search args) = Panicked NilPointerDereference
  <-> forallb issueComplete issues = false.
Proof.
  intros Hq Hs.
  destruct (searchGithubIssues_valid owner repo search args query Hq) as [_ H].
  rewrite Hs in H. destruct (forallb issueComplete issues).
  - destruct H as [t ->]. split; discriminate.
  - split; [reflexivity | intros _; exact H].
Qed.

(** X10: when the tracker has created the issue but its answer lacks the
    title or the URL, the create executor panics on a nil pointer, after
    the create call was made. *)
Theorem createGithubIssues_panics_after_create owner repo create args req issue :
  fst (createGithubIssues owner repo create args) = [EvCreateIssue owner repo req] ->
  create owner repo req = inr issue ->
  issueComplete issue = false ->
  snd (createGithubIssues owner repo create args) = Panicked NilPointerDereference.
Proof.
  intros Hf Hc Hi.
  destruct (args !! "title") as [[| | |title| |]|] eqn:Ht;
    try (unfold createGithubIssues in Hf; rewrite Ht in Hf; discriminate).
  destruct (args !! "body") as [[| | |body| |]|] eqn:Hb;
    try (unfold createGithubIssues in Hf; rewrite Ht, Hb in Hf; discriminate).
  rewrite (createGithubIssues_valid _ _ _ _ _ _ Ht Hb) in *.
  cbv zeta in *. simpl in Hf. injection Hf as <-. simpl snd.
  rewrite Hc. destruct issue as [[t|] [u|]]; try reflexivity. discriminate.
Qed.

Lemma stringEntries_strings ls : stringEntries (List.map AnyString ls) = ls.
Proof. induction ls as [|l ls IH]; simpl; [reflexivity | now rewrite IH]. Qed.

(** X11: labels given as an array of strings reach the tracker unchanged:
    same labels, same order, duplicates included. *)
Theorem createGithubIssues_labels_round_trip owner repo create args title body ls :
  args !! "title" = Some (AnyString title) ->
  args !! "body" = Some (AnyString body) ->
  args !! "labels" = Some (AnySlice (List.map AnyString ls)) ->
  fst (createGithubIssues owner repo create args) =
    [EvCreateIssue owner repo
       {| ReqTitle := title; ReqBody := body; ReqLabels := ls |}].
Proof.
  intros Ht Hb Hl.
  rewrite (createGithubIssues_valid _ _ _ _ _ _ Ht Hb), Hl.
  now rewrite stringEntries_strings.
Qed.

(** X12: the create executor makes at most one call, a create call on the
    configured repository carrying the [title] and [body] arguments as they
    are; it never searches. *)
Theorem createGithubIssues_calls owner repo create args :
  fst (createGithubIssues owner repo create args) = [] \/
  exists title body labels,
    args !! "title" = Some (AnyString title) /\
    args !! "body" = Some (AnyString body) /\
    fst (createGithubIssues owner repo create args) =
      [EvCreateIssue owner repo
         {| ReqTitle := title; ReqBody := body; ReqLabels := labels |}].
Proof.
  destruct (args !! "title") as [[| | |title| |]|] eqn:Ht;
    try (left; unfold createGithubIssues; now rewrite Ht).
  destruct (args !! "body") as [[| | |body| |]|] eqn:Hb;
    try (left; unfold createGithubIssues; now rewrite Ht, Hb).
  right. exists title, body. eexists. split; [reflexivity|]. split; [reflexivity|].
  now rewrite (createGithubIssues_valid _ _ _ _ _ _ Ht Hb).
Qed.

(** ** Properties of the start-up code *)

(** X13: every registered tool reads only the parameters it declares: two
    argument maps that agree on the declared parameters give the same
    calls and the same result. *)
Theorem tools_read_declared_params owner repo client key tool args args' :
  In tool (Tools (initializeAIPipeline owner repo client key)) ->
  (forall k, is_Some (Params tool !! k) -> args !! k = args' !! k) ->
  Executor tool args = Executor tool args'.
Proof.
  intros [<-|[<-|[]]] H; simpl in *.
  - assert (Hq : args !! "query" = args' !! "query")
      by (apply H; eexists; apply lookup_singleton_eq).
    unfold searchGithubIssues. now rewrite Hq.
  - assert (Ht : args !! "title" = args' !! "title")
      by (apply H; eexists; vm_compute; reflexivity).
    assert (Hb : args !! "body" = args' !! "body")
      by (apply H; eexists; vm_compute; reflexivity).
    assert (Hl : args !! "labels" = args' !! "labels")
      by (apply H; eexists; vm_compute; reflexivity).
    unfold createGithubIssues. now rewrite Ht, Hb, Hl.
Qed.

Lemma tools_read_declared_params_witness :
  searchGithubIssues "acme" "app" (mockSearch [])
    (<[ "limit" := AnyFloat64 0 ]> {[ "query" := AnyString "nil pointer" ]})
  = searchGithubIssues "acme" "app" (mockSearch [])
      {[ "query" := AnyString "nil pointer" ]}.
Proof.
  apply (tools_read_declared_params "acme" "app" (mockClient [] "https://x/42")
           "sk-test"
           {| Name := "search_github_issues";
              Description := "Searches for existing GitHub issues in the repository based on a query. Returns a list of issue titles and URLs if found, otherwise indicates no issues found.";
              Params :=
                {[ "query" :=
                     {| FieldType := "string";
                        FieldDescription := "The search query for GitHub issues, e.g., 'bug in login module' or 'database connection error'.";
                        Enum := [] |} ]};
              Executor := searchGithubIssues "acme" "app" (mockSearch []) |}).
  - left. reflexivity.
  - intros k [p Hp]. destruct (decide (k = "query")) as [->|Hk].
    + vm_compute. reflexivity.
    + simpl in Hp. rewrite lookup_singleton_ne in Hp by congruence. discriminate.
Defined.

(** X14: [main] reaches [ListenAndServe] exactly when the four variables
    are set to non-empty values, and then it listens on [":8000"], routes
    ["POST /process_error"], and builds the pipeline from those values;
    otherwise it ends in [log.Fatal]. *)
Theorem main_serves_iff newClient env addr pattern pipeline :
  main newClient env = Serving addr pattern pipeline <->
  exists key token owner repo,
    env !! "OPENAI_API_KEY" = Some key /\ key <> "" /\
    env !! "GITHUB_TOKEN" = Some token /\ token <> "" /\
    env !! "GITHUB_OWNER" = Some owner /\ owner <> "" /\
    env !! "GITHUB_REPO" = Some repo /\ repo <> "" /\
    addr = ":8000" /\ pattern = "POST /process_error" /\
    pipeline = initializeAIPipeline owner repo (newClient token) key.
Proof.
  unfold main, Getenv. split.
  - destruct (env !! "OPENAI_API_KEY") as [key|]; simpl; [|discriminate].
    destruct (String.eqb_spec key "") as [|Hk]; simpl; [discriminate|].
    destruct (env !! "GITHUB_TOKEN") as [token|]; simpl; [|discriminate].
    destruct (String.eqb_spec token "") as [|Ht]; simpl; [discriminate|].
    destruct (env !! "GITHUB_OWNER") as [owner|]; simpl; [|discriminate].
    destruct (String.eqb_spec owner "") as [|Ho]; simpl; [discriminate|].
    destruct (env !! "GITHUB_REPO") as [repo|]; simpl; [|discriminate].
    destruct (String.eqb_spec repo "") as [|Hr]; simpl; [discriminate|].
    intros [= <- <- <-]. exists key, token, owner, repo. repeat split; assumption.
  - intros (key & token & owner & repo & -> & Hk & -> & Ht & -> & Ho & -> & Hr
            & -> & -> & ->). simpl.
    apply String.eqb_neq in Hk, Ht, Ho, Hr. now rewrite Hk, Ht, Ho, Hr.
Qed.

Lemma occursIn_app_l x a b : occursIn x a -> occursIn x (a +:+ b).
Proof.
  intros (p & q & ->). exists p, (q +:+ b). now rewrite !append_assoc.
Qed.

Lemma occursIn_app_r x a b : occursIn x b -> occursIn x (a +:+ b).
Proof.
  intros (p & q & ->). exists (a +:+ p), q. now rewrite !append_assoc.
Qed.

Ltac find_occurrence :=
  first [ apply Contains_occursIn; reflexivity
        | apply occursIn_app_l; find_occurrence
        | apply occursIn_app_r; find_occurrence ].

(** X15: the system prompt agrees with the registry and the
    configuration: it names, in quotes, every registered tool, and it
    names the repository [<owner>/<repo>] the tools act on. *)
Theorem prompt_names_tools_and_repository owner repo client key :
  let pipeline := initializeAIPipeline owner repo client key in
  (forall tool, In tool (Tools pipeline) ->
     occursIn ("'" +:+ Name tool +:+ "'") (SystemPrompt pipeline)) /\
  occursIn (owner +:+ "/" +:+ repo) (SystemPrompt pipeline).
Proof.
  simpl. unfold agentSystemPrompt. simpl Strings.Join. split.
  - intros tool [<-|[<-|[]]]; simpl Name; find_occurrence.
  - do 4 apply occursIn_app_r. apply occursIn_app_l. do 2 apply occursIn_app_r.
    exists "", ".". now rewrite append_nil_l, !append_assoc.
Qed.

(** ** The handler behind the library's decoder *)

Lemma plainByte_inString s c :
  plainByte c = true -> JSON.step s = JSON.stateInString ->
  JSON.scanStep s c = (s, JSON.scanContinue).
Proof.
  unfold plainByte. intros H E. unfold JSON.scanStep. rewrite E.
  unfold JSON.stateInStringFn.
  destruct (JSON.eqc c DQ); [now rewrite andb_false_r in H|].
  destruct (JSON.eqc c JSON.BS); [now rewrite andb_false_r in H|].
  destruct (N.ltb_spec (UTF8.byteVal c) 32) as [L|L]; [|reflexivity].
  apply N.leb_gt in L. now rewrite L in H.
Qed.

Lemma readLoop_plain log : forall s tail v rest,
  plainBytes log = true -> JSON.step s = JSON.stateInString ->
  JSON.readLoop s tail = JSON.ReadValue v rest ->
  JSON.readLoop s (log +:+ tail) = JSON.ReadValue (log +:+ v) rest.
Proof.
  induction log as [|c log IH]; intros s tail v rest P E R.
  - exact R.
  - simpl in P. apply andb_true_iff in P as [Pc P].
    change (String c log +:+ tail) with (String c (log +:+ tail)).
    cbn [JSON.readLoop]. rewrite (plainByte_inString _ _ Pc E).
    now rewrite (IH _ _ _ _ P E R).
Qed.

Lemma buildFrom_plain log : forall s b l tail,
  plainBytes log = true -> JSON.step s = JSON.stateInString ->
  JSON.lit b = Some l ->
  JSON.buildFrom s b (log +:+ tail) =
  JSON.buildFrom s {| JSON.frames := JSON.frames b; JSON.lit := Some (l +:+ log);
                      JSON.done := JSON.done b |} tail.
Proof.
  induction log as [|c log IH]; intros s b l tail P E L.
  - rewrite append_nil_r. destruct b as [fs l' d]. simpl in L. now subst l'.
  - simpl in P. apply andb_true_iff in P as [Pc P].
    change (String c log +:+ tail) with (String c (log +:+ tail)).
    cbn [JSON.buildFrom]. rewrite (plainByte_inString _ _ Pc E).
    unfold JSON.feed. rewrite L.
    rewrite (IH s {| JSON.frames := JSON.frames b;
                     JSON.lit := Some (l +:+ String c "");
                     JSON.done := JSON.done b |} (l +:+ String c "") tail P E eq_refl).
    cbn [JSON.frames JSON.done].
    now rewrite append_assoc.
Qed.

Lemma unquoteBytes_plain log : plainBytes log = true -> JSON.unquoteBytes log = log.
Proof.
  induction log as [|c log IH]; [reflexivity|].
  simpl. intros P. apply andb_true_iff in P as [Pc P].
  unfold plainByte in Pc.
  destruct (JSON.eqc c JSON.BS) eqn:B; [now rewrite andb_false_r in Pc|].
  destruct (JSON.eqc c DQ) eqn:Q; [now rewrite andb_false_r in Pc|].
  rewrite !andb_true_r in Pc. apply andb_true_iff in Pc as [P1 P2].
  apply N.leb_le in P1.
  destruct (N.ltb_spec (UTF8.byteVal c) 32) as [L|L]; [lia|].
  simpl. rewrite P2. now rewrite (IH P).
Qed.

Lemma substring_app_l a b :
  String.substring 0 (String.length a) (a +:+ b) = a.
Proof.
  induction a as [|c a IH].
  - simpl. now destruct b.
  - change (String c a +:+ b) with (String c (a +:+ b)). simpl. now rewrite IH.
Qed.

Lemma strlen_app a b : String.length (a +:+ b) = (String.length a + String.length b)%nat.
Proof.
  induction a as [|c a IH]; [reflexivity|].
  change (String c a +:+ b) with (String c (a +:+ b)). simpl. now rewrite IH.
Qed.

Lemma unquote_plain log :
  plainBytes log = true -> JSON.unquote (dq +:+ log +:+ dq) = log.
Proof.
  intros P. unfold JSON.unquote.
  change (dq +:+ log +:+ dq) with (String DQ (log +:+ dq)).
  cbn [String.length String.substring]. rewrite strlen_app.
  replace (S (String.length log + String.length dq) - 2)%nat
    with (String.length log) by (simpl; lia).
  rewrite substring_app_l. now apply unquoteBytes_plain.
Qed.

Lemma jsonBody_then log rest :
  jsonBody log +:+ rest =
  "{" +:+ dq +:+ "error_log" +:+ dq +:+ ":" +:+ dq +:+ log +:+ dq +:+ "}" +:+ rest.
Proof. unfold jsonBody. now rewrite !append_assoc. Qed.

(** The decoder takes a request as the first value, and leaves what
    follows it. *)
Lemma readValue_request log rest :
  plainBytes log = true ->
  JSON.readValue (jsonBody log +:+ rest) = inr (jsonBody log, rest).
Proof.
  intros P.
  set (s1 := {| JSON.step := JSON.stateInString;
                JSON.parseState := [JSON.parseObjectValue];
                JSON.endTop := false; JSON.err := None |}).
  assert (R1 : JSON.readLoop s1 (log +:+ dq +:+ "}" +:+ rest)
               = JSON.ReadValue (log +:+ dq +:+ "}") rest)
    by (now apply readLoop_plain).
  rewrite jsonBody_then. unfold JSON.readValue.
  change (JSON.readLoop JSON.reset
            ("{" +:+ dq +:+ "error_log" +:+ dq +:+ ":" +:+ dq +:+ log
               +:+ dq +:+ "}" +:+ rest))
    with (JSON.more "{" (JSON.more DQ (JSON.more "e" (JSON.more "r"
           (JSON.more "r" (JSON.more "o" (JSON.more "r" (JSON.more "_"
           (JSON.more "l" (JSON.more "o" (JSON.more "g" (JSON.more DQ
           (JSON.more ":" (JSON.more DQ
              (JSON.readLoop s1 (log +:+ dq +:+ "}" +:+ rest)))))))))))))))).
  rewrite R1. reflexivity.
Qed.

Lemma parse_request log :
  plainBytes log = true ->
  JSON.parse (jsonBody log)
  = Some (JSON.JObject [(dq +:+ "error_log" +:+ dq,
                         JSON.JString (dq +:+ log +:+ dq))]).
Proof.
  intros P.
  set (s1 := {| JSON.step := JSON.stateInString;
                JSON.parseState := [JSON.parseObjectValue];
                JSON.endTop := false; JSON.err := None |}).
  unfold JSON.parse.
  change (JSON.buildFrom JSON.reset
            {| JSON.frames := []; JSON.lit := None; JSON.done := None |}
            (jsonBody log))
    with (JSON.buildFrom s1
            {| JSON.frames := [JSON.FObject [] (Some (dq +:+ "error_log" +:+ dq))];
               JSON.lit := Some dq; JSON.done := None |}
            (log +:+ dq +:+ "}")).
  rewrite (buildFrom_plain log s1
             {| JSON.frames := [JSON.FObject [] (Some (dq +:+ "error_log" +:+ dq))];
                JSON.lit := Some dq; JSON.done := None |}
             dq (dq +:+ "}") P eq_refl eq_refl).
  reflexivity.
Qed.

Lemma Decode_request log rest :
  plainBytes log = true ->
  Decode (jsonBody log +:+ rest) = inr {| ErrorLog := log |}.
Proof.
  intros P. unfold Decode.
  rewrite (readValue_request log rest P), (parse_request log P).
  unfold unmarshal. cbn [fold_left]. unfold storeMember. cbn [fst snd].
  replace (JSON.selects "error_log" (JSON.unquote (dq +:+ "error_log" +:+ dq)))
    with true by (vm_compute; reflexivity).
  cbn [fst snd]. now rewrite (unquote_plain log P).
Qed.

Lemma Decode_jsonBody log :
  plainBytes log = true -> Decode (jsonBody log) = inr {| ErrorLog := log |}.
Proof.
  intros P. rewrite <- (append_nil_r (jsonBody log)). now apply Decode_request.
Qed.

(** X17: what follows a request in the body is ignored.  For a log of
    plain bytes, the handler does on [{"error_log":"<log>"}] followed by
    any bytes what it does on [{"error_log":"<log>"}] alone. *)
Theorem handleProcessError_ignores_trailing errorText pipeline log rest :
  plainBytes log = true ->
  handleProcessError (decodeBody errorText) pipeline
    {| ReqBytes := jsonBody log +:+ rest |}
  = handleProcessError (decodeBody errorText) pipeline
      {| ReqBytes := jsonBody log |}.
Proof.
  intros P. unfold handleProcessError, decodeBody. cbn [ReqBytes].
  now rewrite (Decode_request log rest P), (Decode_jsonBody log P).
Qed.

(** X18: the handler behind the library's decoder, on the body
    [{"error_log":"<log>"}] for a log of plain bytes: an empty log is
    answered 400 without a call, a log of one to nine bytes panics
    without a call, and a log of ten bytes or more is run through the
    pipeline once, as it stands and under the run identifier of its first
    ten bytes, and answered 200 or 500. *)
Theorem handleProcessError_plain_request errorText pipeline log :
  plainBytes log = true ->
  (log = "" ->
   exists text,
     handleProcessError (decodeBody errorText) pipeline {| ReqBytes := jsonBody log |}
     = ([], Returned {| StatusCode := 400;
                        ContentType := "text/plain; charset=utf-8";
                        Body := TextBody text |})) /\
  (log <> "" -> (Strings.len log < 10)%Z ->
   handleProcessError (decodeBody errorText) pipeline {| ReqBytes := jsonBody log |}
   = ([], Panicked SliceBoundsOutOfRange)) /\
  ((10 <= Strings.len log)%Z ->
   exists resp,
     handleProcessError (decodeBody errorText) pipeline {| ReqBytes := jsonBody log |}
     = (EvPipelineRun log (runIDOf log) :: fst (pipeline log (runIDOf log)),
        Returned resp) /\
     (StatusCode resp = 200 \/ StatusCode resp = 500)).
Proof.
  intros P.
  assert (D : decodeBody errorText (ReqBytes {| ReqBytes := jsonBody log |})
              = inr {| ErrorLog := log |})
    by (apply decodeBody_request, Decode_jsonBody, P).
  repeat split.
  - intros E. rewrite (handleProcessError_empty _ _ _ _ D E). eexists. reflexivity.
  - intros E L. apply (handleProcessError_short _ _ _ _ D E). now apply sliceTo_short.
  - intros L. exact (handleProcessError_long _ pipeline _ _ D L).
Qed.


(** ** The further properties at concrete inputs *)

Lemma handleProcessError_long_log_answered_witness :
  exists resp,
    handleProcessError
      (mockDecode (inr {| ErrorLog := "nil pointer in db.go:54" |}))
      (mockPipeline ("All good", None))
      {| ReqBytes := jsonBody "nil pointer in db.go:54" |}
    = ([EvPipelineRun "nil pointer in db.go:54" "run-idnil pointe"],
       Returned resp) /\
    (StatusCode resp = 200 \/ StatusCode resp = 500).
Proof.
  apply (handleProcessError_long_log_answered
           (mockDecode (inr {| ErrorLog := "nil pointer in db.go:54" |}))
           (mockPipeline ("All good", None))
           {| ReqBytes := jsonBody "nil pointer in db.go:54" |}
           {| ErrorLog := "nil pointer in db.go:54" |});
    [reflexivity | vm_compute; discriminate].
Defined.

Lemma handleProcessError_pipeline_error_witness :
  snd (handleProcessError
         (mockDecode (inr {| ErrorLog := "nil pointer in db.go:54" |}))
         (mockPipeline (createdAnswer "X" "https://x/42", Some "context deadline exceeded"))
         {| ReqBytes := jsonBody "nil pointer in db.go:54" |})
  = Returned {| StatusCode := 500;
                ContentType := "text/plain; charset=utf-8";
                Body := TextBody ("Agent failed to process error: "
                                    +:+ "context deadline exceeded" +:+ nl) |}.
Proof.
  apply (handleProcessError_pipeline_error _ _ _
           {| ErrorLog := "nil pointer in db.go:54" |}
           (createdAnswer "X" "https://x/42"));
    [reflexivity | vm_compute; discriminate | reflexivity].
Defined.

Lemma synthesize_url_needs_marker_witness :
  (occursIn "GitHub issue created successfully!" (createdAnswer "X" "https://x/42") \/
   occursIn "Found existing issues:" (createdAnswer "X" "https://x/42")) /\
  occursIn "URL: " (createdAnswer "X" "https://x/42").
Proof.
  destruct (synthesize_url_needs_marker (createdAnswer "X" "https://x/42"))
    as (resp & Hs & H).
  apply H.
  assert (E : synthesize (createdAnswer "X" "https://x/42") =
              ([], Returned {| Status := "success";
                               Message := createdAnswer "X" "https://x/42";
                               IssueURL := "https://x/42" |}))
    by (vm_compute; reflexivity).
  rewrite E in Hs. injection Hs as <-. discriminate.
Defined.

Lemma searchGithubIssues_panic_iff_witness :
  snd (searchGithubIssues "acme" "app"
         (mockSearch [ {| Title := None; HTMLURL := Some "https://x/42" |} ])
         {[ "query" := AnyString "nil pointer" ]})
  = Panicked NilPointerDereference.
Proof.
  apply (searchGithubIssues_panic_iff "acme" "app" _ _ "nil pointer"
           [ {| Title := None; HTMLURL := Some "https://x/42" |} ]);
    reflexivity.
Defined.

Lemma createGithubIssues_panics_after_create_witness :
  snd (createGithubIssues "acme" "app"
         (fun _ _ _ => inr {| Title := None; HTMLURL := Some "https://x/42" |})
         (argsOf "T" "B" []))
  = Panicked NilPointerDereference.
Proof.
  apply (createGithubIssues_panics_after_create "acme" "app" _ _
           {| ReqTitle := "T"; ReqBody := "B"; ReqLabels := [] |}
           {| Title := None; HTMLURL := Some "https://x/42" |});
    [vm_compute; reflexivity | reflexivity | reflexivity].
Defined.

Lemma createGithubIssues_labels_round_trip_witness :
  fst (createGithubIssues "acme" "app" (mockCreate "https://x/42")
         (argsOf "T" "B" [AnyString "bug"; AnyString "llm created"; AnyString "bug"]))
  = [EvCreateIssue "acme" "app"
       {| ReqTitle := "T"; ReqBody := "B";
          ReqLabels := ["bug"; "llm created"; "bug"] |}].
Proof.
  apply (createGithubIssues_labels_round_trip "acme" "app" _ _ "T" "B"
           ["bug"; "llm created"; "bug"]); vm_compute; reflexivity.
Defined.

Lemma prompt_names_tools_and_repository_witness :
  occursIn "'create_github_issue'" (agentSystemPrompt "acme" "app") /\
  occursIn "acme/app" (agentSystemPrompt "acme" "app").
Proof.
  destruct (prompt_names_tools_and_repository "acme" "app"
              (mockClient [] "https://x/42") "sk-test") as [Ht Hr].
  split; [|exact Hr].
  exact (Ht _ (or_intror (or_introl eq_refl))).
Defined.

Lemma runeWidth_app a b :
  UTF8.runeWidth a <> 0%nat -> UTF8.runeWidth (a +:+ b) = UTF8.runeWidth a.
Proof.
  destruct a as [|b0 a1]; [intros H; now contradiction H|].
  rewrite append_String. unfold UTF8.runeWidth.
  destruct (UTF8.byteVal b0 <? 128)%N; [reflexivity|].
  destruct (UTF8.byteVal b0 <? 194)%N; [reflexivity|].
  destruct (UTF8.byteVal b0 <? 224)%N.
  { destruct a1 as [|b1 a2]; [intros H; now contradiction H | reflexivity]. }
  destruct (UTF8.byteVal b0 <? 240)%N.
  { destruct a1 as [|b1 [|b2 a3]]; try (intros H; now contradiction H).
    reflexivity. }
  destruct (UTF8.byteVal b0 <? 245)%N; [|reflexivity].
  destruct a1 as [|b1 [|b2 [|b3 a4]]]; try (intros H; now contradiction H).
  reflexivity.
Qed.

(** Valid UTF-8 strings concatenate to valid UTF-8. *)
Lemma ValidString_app_bounded n :
  forall a b, (String.length a <= n)%nat ->
  UTF8.ValidString a = true -> UTF8.ValidString b = true ->
  UTF8.ValidString (a +:+ b) = true.
Proof.
  induction n as [|n IH]; intros a b Hn Ha Hb.
  - destruct a; [exact Hb | simpl in Hn; lia].
  - destruct a as [|b0 a1]; [exact Hb|].
    rewrite ValidString_eq in Ha.
    rewrite append_String, ValidString_eq, <- append_String.
    rewrite runeWidth_app
      by (destruct (UTF8.runeWidth (String b0 a1)); [discriminate | congruence]).
    destruct (UTF8.runeWidth (String b0 a1)) as [|[|[|[|[|k]]]]];
      try discriminate.
    + apply IH; [simpl in Hn; lia | exact Ha | exact Hb].
    + destruct a1 as [|b1 a2]; [discriminate|]. rewrite append_String.
      apply IH; [simpl in Hn; lia | exact Ha | exact Hb].
    + destruct a1 as [|b1 [|b2 a3]]; try discriminate. rewrite !append_String.
      apply IH; [simpl in Hn; lia | exact Ha | exact Hb].
    + destruct a1 as [|b1 [|b2 [|b3 a4]]]; try discriminate.
      rewrite !append_String.
      apply IH; [simpl in Hn; lia | exact Ha | exact Hb].
Qed.

Lemma ValidString_app a b :
  UTF8.ValidString a = true -> UTF8.ValidString b = true ->
  UTF8.ValidString (a +:+ b) = true.
Proof. apply (ValidString_app_bounded (String.length a)). lia. Qed.

Lemma createdAnswer_valid t u :
  UTF8.ValidString t = true -> UTF8.ValidString u = true ->
  UTF8.ValidString (createdAnswer t u) = true.
Proof.
  intros Ht Hu. unfold createdAnswer.
  repeat (apply ValidString_app; [try reflexivity; assumption|]).
  exact Hu.
Qed.

(** X16: the success path end to end.  For a log of ten bytes or more,
    when the pipeline's final output is the create executor's text for an
    issue titled [t] at the non-empty URL [u] (both valid UTF-8, [t] free
    of ["URL: "], [u] free of space and newline and unchanged by
    trimming), the handler answers 200 with the JSON members [status],
    [message] and [issue_url], the last one being [u]. *)
Theorem handleProcessError_created_response jsonDecode pipeline r req t u :
  jsonDecode (ReqBytes r) = inr req ->
  (10 <= Strings.len (ErrorLog req))%Z ->
  snd (pipeline (ErrorLog req) (runIDOf (ErrorLog req))) = (createdAnswer t u, None) ->
  UTF8.ValidString t = true ->
  UTF8.ValidString u = true ->
  ~ occursIn "URL: " t ->
  Strings.IndexAny u (" " +:+ nl) = (-1)%Z ->
  Strings.TrimSpace u = u ->
  u <> "" ->
  snd (handleProcessError jsonDecode pipeline r) =
    Returned {| StatusCode := 200; ContentType := "application/json";
                Body := JSONBody [("status", "success");
                                  ("message", createdAnswer t u);
                                  ("issue_url", u)] |}.
Proof.
  intros H L P Vt Vu Ht Hu Hs Hne.
  pose proof (long_log_nonempty _ L) as E. apply String.eqb_neq in E.
  unfold handleProcessError. rewrite H, E, (sliceTo_long _ L).
  unfold runIDOf in P. eff.
  destruct (pipeline (ErrorLog req) ("run-id" +:+ String.substring 0 10 (ErrorLog req)))
    as [calls ans]. simpl in P. subst ans. eff.
  rewrite (synthesize_created_answer t u Ht Hu Hs). eff.
  unfold jsonResponse, encodeAPIResponse. cbn [Status Message IssueURL].
  apply String.eqb_neq in Hne. rewrite Hne.
  rewrite (replaceInvalid_valid _ (createdAnswer_valid _ _ Vt Vu)).
  rewrite (replaceInvalid_valid _ Vu). reflexivity.
Qed.

Lemma handleProcessError_created_response_witness :
  snd (handleProcessError
         (mockDecode (inr {| ErrorLog := "nil pointer in db.go:54" |}))
         (mockPipeline (createdAnswer "Bug: nil pointer in db" "https://x/42", None))
         {| ReqBytes := jsonBody "nil pointer in db.go:54" |})
  = Returned {| StatusCode := 200; ContentType := "application/json";
                Body := JSONBody
                  [("status", "success");
                   ("message", createdAnswer "Bug: nil pointer in db" "https://x/42");
                   ("issue_url", "https://x/42")] |}.
Proof.
  apply (handleProcessError_created_response _ _ _
           {| ErrorLog := "nil pointer in db.go:54" |});
    [reflexivity | vm_compute; discriminate | reflexivity
    | reflexivity | reflexivity
    | apply Index_absent_iff; reflexivity | reflexivity | reflexivity
    | discriminate].
Defined.

Lemma searchGithubIssues_error_iff_witness :
  snd (searchGithubIssues "acme" "app" (fun _ => inl "401 Bad credentials")
         {[ "query" := AnyString "nil pointer" ]})
  = Returned ("Error searching GitHub issues: " +:+ "401 Bad credentials",
              Some "401 Bad credentials").
Proof.
  apply (proj2 (searchGithubIssues_error_iff "acme" "app"
                  (fun _ => inl "401 Bad credentials")
                  {[ "query" := AnyString "nil pointer" ]}
                  ("Error searching GitHub issues: " +:+ "401 Bad credentials")
                  "401 Bad credentials")).
  right. exists "nil pointer". repeat split; reflexivity.
Defined.

Lemma main_serves_iff_witness :
  main (fun _ => mockClient [] "https://x/42")
    (<[ "OPENAI_API_KEY" := "sk-test" ]>
       (<[ "GITHUB_TOKEN" := "ghp-test" ]>
          (<[ "GITHUB_OWNER" := "acme" ]> {[ "GITHUB_REPO" := "app" ]})))
  = Serving ":8000" "POST /process_error"
      (initializeAIPipeline "acme" "app" (mockClient [] "https://x/42") "sk-test").
Proof.
  apply (proj2 (main_serves_iff _ _ _ _ _)).
  exists "sk-test", "ghp-test", "acme", "app".
  repeat split; first [vm_compute; reflexivity | discriminate].
Defined.

Lemma handleProcessError_ignores_trailing_witness :
  handleProcessError (decodeBody (mockErrorText "unexpected EOF"))
    (mockPipeline (createdAnswer "Bug: nil pointer in db" "https://x/42", None))
    {| ReqBytes := jsonBody "nil pointer in db.go:54" +:+ " trailing garbage }" |}
  = handleProcessError (decodeBody (mockErrorText "unexpected EOF"))
      (mockPipeline (createdAnswer "Bug: nil pointer in db" "https://x/42", None))
      {| ReqBytes := jsonBody "nil pointer in db.go:54" |}.
Proof. apply handleProcessError_ignores_trailing. reflexivity. Defined.

Lemma handleProcessError_plain_request_witness :
  exists resp,
    handleProcessError (decodeBody (mockErrorText "unexpected EOF"))
      (mockPipeline (createdAnswer "Bug: nil pointer in db" "https://x/42", None))
      {| ReqBytes := jsonBody "nil pointer in db.go:54" |}
    = ([EvPipelineRun "nil pointer in db.go:54" "run-idnil pointe"],
       Returned resp) /\
    (StatusCode resp = 200 \/ StatusCode resp = 500).
Proof.
  apply (handleProcessError_plain_request
           (mockErrorText "unexpected EOF")
           (mockPipeline (createdAnswer "Bug: nil pointer in db" "https://x/42", None))
           "nil pointer in db.go:54" eq_refl).
  vm_compute. discriminate.
Defined.
